(** * ME 405 Lab 0: step response acquisition

    A shallow embedding of the two programs of the repository:

    - [gui.py], the host program: [get_data] resets the board over the
      serial port, skips the boot banner, sends a line and reads CSV lines
      until the terminating string;
    - [step_response.py], the board program: a timer interrupt fills a queue
      with ADC readings, [print_vals] prints the queue as CSV lines and
      [step_response] prints the terminating string.

    Python values are modelled as follows.  [bytes] is [list byte], [str] is
    [string], [int] is [Z].  A [float] is the exact rational it denotes
    (rounding to a binary double, overflow to infinity and the sign of zero
    are not modelled).  Exceptions are an explicit outcome. *)

From Stdlib Require Import ZArith QArith Qround List Bool Arith Lia.
From Stdlib Require Import Strings.String Strings.Ascii Strings.Byte.
From Stdlib Require Import DecimalString DecimalPos.
From Equations Require Import Equations.
Import ListNotations.

Close Scope Q_scope.
Local Open Scope nat_scope.
Local Open Scope list_scope.

(** ** Outcomes of a call *)

(** The exception classes the two programs can raise. *)
Inductive pyexn : Type :=
| UnicodeDecodeError
| ZeroDivisionError
| ValueError.

Definition exn_name (e : pyexn) : string :=
  match e with
  | UnicodeDecodeError => "UnicodeDecodeError"
  | ZeroDivisionError => "ZeroDivisionError"
  | ValueError => "ValueError"
  end.

(** A call returns a value, raises, or never comes back because it waits in a
    blocking read with no timeout. *)
Inductive outcome (A : Type) : Type :=
| Returned (a : A)
| Raised (e : pyexn)
| Blocked.

Arguments Returned {A} a.
Arguments Raised {A} e.
Arguments Blocked {A}.

(** Matching on a value while keeping the equation that names it. *)
Definition inspect {A : Type} (a : A) : {b : A | a = b} := exist _ a eq_refl.

(** ** The Python builtins used by [gui.py] *)

Module Py.

Definition bytes := list byte.

(** [b[:-2]] *)
Definition slice_to_minus2 (b : bytes) : bytes :=
  firstn (List.length b - 2) b.

(** [b.decode('ascii')]: every byte must be below 128. *)
Definition decode_ascii (b : bytes) : option string :=
  if forallb (fun x => (Byte.to_N x <? 128)%N) b
  then Some (string_of_list_byte b)
  else None.

(** [s.split(',')]: always at least one field. *)
Fixpoint split_comma (s : string) : list string :=
  match s with
  | EmptyString => [EmptyString]
  | String c r =>
      if (c =? ",")%char then EmptyString :: split_comma r
      else match split_comma r with
           | f :: fs => String c f :: fs
           | [] => [String c EmptyString]
           end
  end.

(** [str.isspace] on ASCII: TAB LF VT FF CR, FS GS RS US and the space. *)
Definition isspace (c : ascii) : bool :=
  let n := nat_of_ascii c in
  ((9 <=? n) && (n <=? 13)) || ((28 <=? n) && (n <=? 31)) || (n =? 32).

Fixpoint lstrip_chars (s : list ascii) : list ascii :=
  match s with
  | c :: r => if isspace c then lstrip_chars r else s
  | [] => []
  end.

Definition strip_chars (s : list ascii) : list ascii :=
  rev (lstrip_chars (rev (lstrip_chars s))).

(** [s.strip()] *)
Definition strip (s : string) : string :=
  string_of_list_ascii (strip_chars (list_ascii_of_string s)).

(** A float: the rational it denotes, an infinity, or not-a-number. *)
Inductive pyfloat : Type :=
| Finite (q : Q)
| Infinity (negative : bool)
| NaN.

Definition is_digit (c : ascii) : bool :=
  let n := nat_of_ascii c in (48 <=? n) && (n <=? 57).

Definition digit_value (c : ascii) : Z := Z.of_nat (nat_of_ascii c - 48).

Definition digits_value (ds : list ascii) : Z :=
  fold_left (fun acc c => 10 * acc + digit_value c)%Z ds 0%Z.

(** [digitpart ::= digit (["_"] digit)*]; the digits, underscores removed. *)
Fixpoint digitpart_from (after_digit : bool) (s : list ascii)
  : option (list ascii) :=
  match s with
  | [] => if after_digit then Some [] else None
  | c :: r =>
      if is_digit c then option_map (cons c) (digitpart_from true r)
      else if (c =? "_")%char && after_digit then digitpart_from false r
      else None
  end.

Definition digitpart (s : list ascii) : option (list ascii) :=
  digitpart_from false s.

(** The text before the first character satisfying [p], and what follows
    that character when there is one. *)
Fixpoint break_at (p : ascii -> bool) (s : list ascii)
  : list ascii * option (list ascii) :=
  match s with
  | [] => ([], None)
  | c :: r =>
      if p c then ([], Some r)
      else let '(a, b) := break_at p r in (c :: a, b)
  end.

Definition optional_digitpart (s : list ascii) : option (list ascii) :=
  match s with
  | [] => Some []
  | _ => digitpart s
  end.

(** [number ::= [digitpart] "." digitpart | digitpart ["."]]; the digits
    read as one integer, and how many of them follow the point. *)
Definition parse_number (s : list ascii) : option (Z * nat) :=
  match break_at (fun c => (c =? ".")%char) s with
  | (ip, None) =>
      match digitpart ip with
      | Some ds => Some (digits_value ds, 0)
      | None => None
      end
  | ([], Some []) => None
  | (ip, Some fp) =>
      match optional_digitpart ip, optional_digitpart fp with
      | Some di, Some df => Some (digits_value (di ++ df), List.length df)
      | _, _ => None
      end
  end.

(** [[sign]]: whether the sign is a minus, and the rest. *)
Definition take_sign (s : list ascii) : bool * list ascii :=
  match s with
  | c :: r =>
      if (c =? "-")%char then (true, r)
      else if (c =? "+")%char then (false, r)
      else (false, s)
  | [] => (false, [])
  end.

(** [exponent ::= ("e" | "E") [sign] digitpart], after the letter. *)
Definition parse_exponent (s : list ascii) : option Z :=
  let '(neg, r) := take_sign s in
  match digitpart r with
  | Some ds => Some (if neg then - digits_value ds else digits_value ds)%Z
  | None => None
  end.

(** [floatnumber ::= number [exponent]] *)
Definition parse_floatnumber (s : list ascii) : option Q :=
  let '(mant, ex) :=
    break_at (fun c => (c =? "e")%char || (c =? "E")%char) s in
  match parse_number mant with
  | None => None
  | Some (m, k) =>
      match (match ex with
             | None => Some 0%Z
             | Some e => parse_exponent e
             end) with
      | None => None
      | Some e =>
          Some (Qred (inject_Z m * Qpower (10 # 1) (e - Z.of_nat k)))
      end
  end.

Definition lower (c : ascii) : ascii :=
  let n := nat_of_ascii c in
  if (65 <=? n) && (n <=? 90) then ascii_of_nat (n + 32) else c.

Definition negate (q : Q) : Q := Qred (- q).

(** The white space of the C library: TAB LF VT FF CR and the space.
    Unlike [str.isspace] it leaves out FS GS RS US. *)
Definition is_c_space (c : ascii) : bool :=
  let n := nat_of_ascii c in
  ((9 <=? n) && (n <=? 13)) || (n =? 32).

(** Dropping from both ends the characters that satisfy [sp]. *)
Fixpoint lstrip_with (sp : ascii -> bool) (s : list ascii) : list ascii :=
  match s with
  | c :: r => if sp c then lstrip_with sp r else s
  | [] => []
  end.

Definition strip_with (sp : ascii -> bool) (s : list ascii) : list ascii :=
  rev (lstrip_with sp (rev (lstrip_with sp s))).

(** [float(s)] on an ASCII text: the white space of the C library is
    skipped at both ends; then comes an optional sign and either a number
    or one of the names inf, infinity, nan in any letter case.  [None]
    stands for [ValueError]. *)
Definition float (s : string) : option pyfloat :=
  let '(neg, body) :=
    take_sign (strip_with is_c_space (list_ascii_of_string s)) in
  let name := string_of_list_ascii (map lower body) in
  if (name =? "inf")%string || (name =? "infinity")%string
  then Some (Infinity neg)
  else if (name =? "nan")%string then Some NaN
  else match parse_floatnumber body with
       | Some q => Some (Finite (if neg then negate q else q))
       | None => None
       end.

(** The float written as the decimal [q]. *)
Definition decimal (q : Q) : pyfloat := Finite (Qred q).

End Py.

(** ** [gui.py]: the host program *)

Module Gui.
Import Py.

(** The calls [get_data] makes on the serial port. *)
Inductive port_op : Type :=
| Open
| ResetOutputBuffer
| Write (data : bytes)
| ResetInputBuffer
| ReadLine
| Close.

(** The port as [get_data] sees it: [incoming] holds the lines that the
    coming [readline()] calls return, in order, each with its terminator;
    after the last of them nothing arrives any more.  [calls] records the
    calls made so far.  The port is opened without a timeout, so a
    [readline()] with nothing to read never returns. *)
Record Serial : Type := mkSerial {
  incoming : list bytes;
  calls : list port_op
}.

(** Code running against the port: state passing with an outcome. *)
Definition M (A : Type) : Type := Serial -> outcome A * Serial.

Definition ret {A} (a : A) : M A := fun ser => (Returned a, ser).

Definition raise {A} (e : pyexn) : M A := fun ser => (Raised e, ser).

Definition bind {A B} (c : M A) (k : A -> M B) : M B :=
  fun ser =>
    match c ser with
    | (Returned a, ser') => k a ser'
    | (Raised e, ser') => (Raised e, ser')
    | (Blocked, ser') => (Blocked, ser')
    end.

Notation "x <- c ;; k" := (bind c (fun x => k))
  (at level 61, c at next level, right associativity).
Notation "c ;;; k" := (bind c (fun _ => k))
  (at level 61, right associativity).

Definition call (op : port_op) : M unit :=
  fun ser => (Returned tt, mkSerial (incoming ser) (calls ser ++ [op])).

Definition reset_output_buffer : M unit := call ResetOutputBuffer.
Definition reset_input_buffer : M unit := call ResetInputBuffer.
Definition write (data : bytes) : M unit := call (Write data).

Definition readline : M bytes :=
  fun ser =>
    match incoming ser with
    | [] => (Blocked, mkSerial [] (calls ser ++ [ReadLine]))
    | line :: rest => (Returned line, mkSerial rest (calls ser ++ [ReadLine]))
    end.

(** Leaving a [with] block, by return or by exception, closes the port; a
    body that never comes back leaves it open. *)
Definition close_on_exit {A} (p : outcome A * Serial) : outcome A * Serial :=
  match p with
  | (Blocked, ser') => (Blocked, ser')
  | (r, ser') => (r, mkSerial (incoming ser') (calls ser' ++ [Close]))
  end.

(** [with Serial(PORT_NAME, BAUD_RATE) as ser: body]; opening the port is
    taken to succeed. *)
Definition with_Serial {A} (body : M A) : M A :=
  fun ser => close_on_exit (body (mkSerial (incoming ser) (calls ser ++ [Open]))).

(** [for i in range(n): body] *)
Fixpoint for_range (n : nat) (body : M unit) : M unit :=
  match n with
  | 0 => ret tt
  | S n' => body ;;; for_range n' body
  end.

Definition term_str : string := "End".

(** Lines 70 to 82: what one decoded line adds to the two arrays.  The
    bare [except] swallows the [ValueError] of either [float] call, and
    both conversions precede both appends. *)
Definition store_line (data_str : string) (xdata ydata : list pyfloat)
  : list pyfloat * list pyfloat :=
  let data := split_comma data_str in
  if 2 <=? List.length data then
    match float (strip (nth 0 data EmptyString)) with
    | Some x =>
        match float (strip (nth 1 data EmptyString)) with
        | Some y => (xdata ++ [x], ydata ++ [y])
        | None => (xdata, ydata)
        end
    | None => (xdata, ydata)
    end
  else (xdata, ydata).

(** Lines 65 to 82, [while term_str != data_str: ...], by recursion on the
    lines still to come.  [log] is the record of calls. *)
Fixpoint read_loop (lines : list bytes) (log : list port_op)
  (data_str : string) (xdata ydata : list pyfloat)
  : outcome (list pyfloat * list pyfloat) * Serial :=
  if (term_str =? data_str)%string
  then (Returned (xdata, ydata), mkSerial lines log)
  else
    match lines with
    | [] => (Blocked, mkSerial [] (log ++ [ReadLine]))
    | line :: rest =>
        match decode_ascii (slice_to_minus2 line) with
        | None => (Raised UnicodeDecodeError, mkSerial rest (log ++ [ReadLine]))
        | Some data_str' =>
            let '(xdata', ydata') := store_line data_str' xdata ydata in
            read_loop rest (log ++ [ReadLine]) data_str' xdata' ydata'
        end
    end.

Definition while_not_term (data_str : string) (xdata ydata : list pyfloat)
  : M (list pyfloat * list pyfloat) :=
  fun ser => read_loop (incoming ser) (calls ser) data_str xdata ydata.

(** [get_data()].  The messages it prints on the host's standard output
    are left out. *)
Definition get_data : M (list pyfloat * list pyfloat) :=
  with_Serial
    (reset_output_buffer ;;;
     write [x03] ;;;
     reset_input_buffer ;;;
     write [x02; x04] ;;;
     for_range 6 (_ <- readline ;; ret tt) ;;;
     write [x33; x0a] ;;;
     while_not_term EmptyString [] []).

(** A session on a fresh port on which [lines] arrive. *)
Definition session (lines : list bytes)
  : outcome (list pyfloat * list pyfloat) * Serial :=
  get_data (mkSerial lines []).

Definition result (lines : list bytes)
  : outcome (list pyfloat * list pyfloat) := fst (session lines).

Definition trace (lines : list bytes) : list port_op :=
  calls (snd (session lines)).

(** A line of text as the board's [print] sends it. *)
Definition crlf (s : string) : bytes := list_byte_of_string s ++ [x0d; x0a].

(** *** Notions used in the statements about [get_data] *)

(** The text of a received line: [(line[:-2]).decode('ascii')]. *)
Definition decoded (line : bytes) : option string :=
  decode_ascii (slice_to_minus2 line).

Definition decodable (line : bytes) : Prop := decoded line <> None.

(** The line is the terminating one. *)
Definition is_sentinel (line : bytes) : bool :=
  match decoded line with
  | Some s => (term_str =? s)%string
  | None => false
  end.


(** The numeric fields of a well-formed line. *)
Definition fields (line : bytes) : option (pyfloat * pyfloat) :=
  match decoded line with
  | Some s =>
      match split_comma s with
      | f0 :: f1 :: _ =>
          match float (strip f0), float (strip f1) with
          | Some x, Some y => Some (x, y)
          | _, _ => None
          end
      | _ => None
      end
  | None => None
  end.

Definition well_formed (line : bytes) : bool :=
  match fields line with
  | Some _ => true
  | None => false
  end.

(** The lines received before the first terminating line. *)
Fixpoint before_sentinel (lines : list bytes) : list bytes :=
  match lines with
  | [] => []
  | line :: rest =>
      if is_sentinel line then [] else line :: before_sentinel rest
  end.

(** The pairs of numbers carried by the well-formed lines, in order. *)
Fixpoint pairs (lines : list bytes) : list (pyfloat * pyfloat) :=
  match lines with
  | [] => []
  | line :: rest =>
      match fields line with
      | Some p => p :: pairs rest
      | None => pairs rest
      end
  end.

(** The return of the arrays written as decimals. *)
Definition returns (xs ys : list Q) : outcome (list pyfloat * list pyfloat) :=
  Returned (map decimal xs, map decimal ys).

(** The calls of the reset and handshake, up to the line that is sent. *)
Definition handshake (trigger : bytes) : list port_op :=
  [Open; ResetOutputBuffer; Write [x03]; ResetInputBuffer; Write [x02; x04]]
  ++ repeat ReadLine 6 ++ [Write trigger].

(** Six lines standing for the boot banner in the examples. *)
Definition banner : list bytes :=
  map crlf ["MPY: sync filesystems"; "MPY: soft reboot";
            "MicroPython; PYBv1.1 with STM32F405RG";
            "Type help() for more information."; ">>> "; ""]%string.

End Gui.

(** ** [step_response.py]: the board program *)

Module StepResponse.

Definition QUEUE_SIZE : nat := 200.
Definition TIMER_INTERVAL : Z := 10.
Definition ADC_RESOLUTION : Z := 4096.
Definition MAX_VOLTAGE : Q := 33 # 10.

(** Modelled from the spec: the queue class [cqueue.IntQueue] is imported
    by [step_response.py] and is not part of the sources.  Following the
    specification's bounded sample queue: a FIFO of fixed capacity whose
    [put] on a full queue drops the incoming sample and counts an
    overflow, and whose [get] fails on an empty queue. *)
Record IntQueue : Type := mkQueue {
  capacity : nat;
  items : list Z;
  overflow : nat
}.

Definition new_queue (size : nat) : IntQueue := mkQueue size [] 0.

Definition num_in (q : IntQueue) : nat := List.length (items q).

Definition full (q : IntQueue) : bool := capacity q <=? num_in q.

Definition any (q : IntQueue) : bool :=
  match items q with
  | [] => false
  | _ :: _ => true
  end.

Definition put (v : Z) (q : IntQueue) : IntQueue :=
  if full q
  then mkQueue (capacity q) (items q) (S (overflow q))
  else mkQueue (capacity q) (items q ++ [v]) (overflow q).

Definition get (q : IntQueue) : option (Z * IntQueue) :=
  match items q with
  | [] => None
  | v :: rest => Some (v, mkQueue (capacity q) rest (overflow q))
  end.

(** [adc_voltage]: the exact value of [(adc_val / 4096) * 3.3]. *)
Definition adc_voltage (adc_val : Z) : Q :=
  ((inject_Z adc_val / inject_Z ADC_RESOLUTION) * MAX_VOLTAGE)%Q.

(** What the program takes from the board and the MicroPython runtime:
    the successive ADC conversions, whether the timer driver accepts a
    frequency (it raises [ValueError] otherwise), how many further timer
    ticks slip in between the last poll of [full()] and [deinit()], and
    how [str] prints a float. *)
Record Board : Type := mkBoard {
  adc0_read : nat -> Z;
  timer_accepts : Z -> bool;
  late_ticks : nat;
  str_float : Q -> string
}.

(** The calls the program makes on the pin and on the timer. *)
Inductive board_call : Type :=
| PinInit
| PinValue (v : bool)
| TimerInit (freq : Z)
| TimerDeinit.

(** The module's globals and the devices it drives.  [board_calls] records,
    in order, the calls that took effect on the pin and on the timer. *)
Record Device : Type := mkDevice {
  int_queue : IntQueue;
  conversions : nat;
  pc0_out : bool;
  pc0 : bool;
  tim0 : option Z;
  stdout : list string;
  board_calls : list board_call
}.

Definition set_queue (q : IntQueue) (st : Device) : Device :=
  mkDevice q (conversions st) (pc0_out st) (pc0 st) (tim0 st) (stdout st)
           (board_calls st).

(** [pyb.Pin(pyb.Pin.board.PC0, pyb.Pin.OUT_PP)] *)
Definition set_pc0_out (st : Device) : Device :=
  mkDevice (int_queue st) (conversions st) true (pc0 st) (tim0 st) (stdout st)
           (board_calls st ++ [PinInit]).

(** [pc0.value(v)] *)
Definition set_pc0 (v : bool) (st : Device) : Device :=
  mkDevice (int_queue st) (conversions st) (pc0_out st) v (tim0 st) (stdout st)
           (board_calls st ++ [PinValue v]).

(** [tim0.init(freq=f, callback=timer_int)] that the driver accepted, for
    [Some f], and [tim0.deinit()], for [None]. *)
Definition set_tim0 (t : option Z) (st : Device) : Device :=
  mkDevice (int_queue st) (conversions st) (pc0_out st) (pc0 st) t (stdout st)
           (board_calls st
            ++ [match t with
                | Some f => TimerInit f
                | None => TimerDeinit
                end]).

Definition print (s : string) (st : Device) : Device :=
  mkDevice (int_queue st) (conversions st) (pc0_out st) (pc0 st) (tim0 st)
           (stdout st ++ [s]) (board_calls st).

(** [str] of an [int] *)
Definition str_int (z : Z) : string := NilZero.string_of_int (Z.to_int z).

(** [timer_int]: read the ADC, put the value in the queue. *)
Definition timer_int (hw : Board) (st : Device) : Device :=
  let val := adc0_read hw (conversions st) in
  mkDevice (put val (int_queue st)) (S (conversions st))
           (pc0_out st) (pc0 st) (tim0 st) (stdout st) (board_calls st).

(** ['' + str(t) + ',' + str(adc_voltage(...))] *)
Definition csv_line (hw : Board) (t val : Z) : string :=
  (EmptyString ++ str_int t ++ "," ++ str_float hw (adc_voltage val))%string.

(** The loop of [print_vals], from time [t]. *)
Equations? print_vals_from (hw : Board) (t : Z) (st : Device) : Device
  by wf (num_in (int_queue st)) lt :=
  print_vals_from hw t st with inspect (any (int_queue st)) := {
    | exist _ false _ => st
    | exist _ true _ with inspect (get (int_queue st)) := {
        | exist _ (Some (val, q')) _ =>
            print_vals_from hw (t + TIMER_INTERVAL)%Z
              (set_queue q' (print (csv_line hw t val) st))
        | exist _ None _ => st } }.
Proof.
  unfold get, num_in in *. destruct (items (int_queue st)); [discriminate|].
  match goal with H : Some _ = Some _ |- _ => inversion H; subst end.
  simpl. lia.
Qed.

Definition print_vals (hw : Board) (st : Device) : Device :=
  print_vals_from hw 0%Z st.

(** [while not int_queue.full(): continue], with the timer running: the
    main program only polls, and every timer tick runs [timer_int]. *)
Equations? wait_until_full (hw : Board) (st : Device) : Device
  by wf (capacity (int_queue st) - num_in (int_queue st)) lt :=
  wait_until_full hw st with inspect (full (int_queue st)) := {
    | exist _ true _ => st
    | exist _ false _ => wait_until_full hw (timer_int hw st) }.
Proof.
  match goal with
  | H : full _ = false |- _ =>
      unfold put; rewrite H; unfold full in H; apply Nat.leb_gt in H
  end.
  unfold num_in in *. simpl. rewrite length_app. simpl. lia.
Qed.

(** [f = 1000 // period_ms]: floor division, [ZeroDivisionError] (here
    [None]) on a zero period. *)
Definition frequency (period_ms : Z) : option Z :=
  if (period_ms =? 0)%Z then None else Some (1000 / period_ms)%Z.

(** [step_response(period_ms)] *)
Definition step_response (hw : Board) (period_ms : Z) (st : Device)
  : outcome unit * Device :=
  match frequency period_ms with
  | None => (Raised ZeroDivisionError, st)
  | Some f =>
      let st := set_pc0_out st in
      if timer_accepts hw f then
        let st := set_tim0 (Some f) st in
        let st := set_pc0 true st in
        let st := wait_until_full hw st in
        let st := Nat.iter (late_ticks hw) (timer_int hw) st in
        let st := set_tim0 None st in
        let st := set_pc0 false st in
        let st := print_vals hw st in
        let st := print "End" st in
        (Returned tt, st)
      else (Raised ValueError, st)
  end.

(** The state in which the module is first run: the globals as the module
    initialises them. *)
Definition boot : Device :=
  mkDevice (new_queue QUEUE_SIZE) 0 false false None [] [].

(** *** Notions used in the statements about [step_response] *)

(** The data lines for the samples [vals] when line number [i] is stamped
    [i * period]. *)
Definition data_lines (hw : Board) (period : Z) (vals : list Z)
  : list string :=
  map (fun iv => csv_line hw (Z.of_nat (fst iv) * period) (snd iv))
      (combine (seq 0 (List.length vals)) vals).

(** The samples a run drains: what the queue held, then the conversions
    made until it is full. *)
Definition drained (hw : Board) (st : Device) : list Z :=
  items (int_queue st)
  ++ map (adc0_read hw)
       (seq (conversions st)
            (capacity (int_queue st) - num_in (int_queue st))).

(** The period of a timer running at [f] Hz, in milliseconds. *)
Definition tick_period_ms (f : Z) : Q := (inject_Z 1000 / inject_Z f)%Q.

(** A board for the examples: the ADC follows a ramp, the timer driver
    refuses frequencies that are not positive, one tick comes late, and
    floats print with three decimals. *)
Definition str_digit (z : Z) : string := str_int (z mod 10).

Definition str_fixed3 (q : Q) : string :=
  let m := Qfloor (q * inject_Z 1000) in
  (str_int (m / 1000) ++ "." ++ str_digit (m / 100) ++ str_digit (m / 10)
   ++ str_digit m)%string.

Definition bench : Board :=
  mkBoard (fun n => Z.min 4095 (20 * Z.of_nat n)) (fun f => (0 <? f)%Z) 1
          str_fixed3.

End StepResponse.

(** ** [gui.py]: the plot *)

Module GuiApp.
Import Py Gui.

(** The calls made on the Matplotlib axes and canvas. *)
Inductive gui_call : Type :=
| AxesPlot (xdata ydata : list pyfloat)
| SetXLabel (label : string)
| SetYLabel (label : string)
| AxesGrid (on : bool)
| AxesClear
| CanvasDraw.

(** [plot_example(plot_axes, plot_canvas, xlabel, ylabel)], run on the
    port [ser] with the calls [gui] already made on the axes and canvas.
    The lists [times] and [boing] it first computes are never used and are
    left out. *)
Definition plot_example (xlabel ylabel : string) (ser : Serial)
  (gui : list gui_call) : outcome unit * Serial * list gui_call :=
  match get_data ser with
  | (Returned (xdata, ydata), ser') =>
      (Returned tt, ser',
       gui ++ [AxesPlot xdata ydata; SetXLabel xlabel; SetYLabel ylabel;
               AxesGrid true; CanvasDraw])
  | (Raised e, ser') => (Raised e, ser', gui)
  | (Blocked, ser') => (Blocked, ser', gui)
  end.

End GuiApp.

(** ** [square.py]: the square wave *)

Module Square.

(** The board as [square.py] drives it: whether PC0 is an output, its
    level, the time in milliseconds since [main] started, and the changes
    of level with their times.  Setting the pin takes no time and
    [sleep_ms] lasts exactly as long as asked. *)
Record Pyboard : Type := mkPyboard {
  pin_out : bool;
  level : bool;
  ticks_ms : Z;
  edges : list (Z * bool)
}.

Definition power_on : Pyboard := mkPyboard false false 0 [].

(** [pyb.Pin(pyb.Pin.board.PC0, pyb.Pin.OUT_PP)] *)
Definition pin_init (st : Pyboard) : Pyboard :=
  mkPyboard true (level st) (ticks_ms st) (edges st).

(** [pc0.value(v)] *)
Definition pin_value (v : bool) (st : Pyboard) : Pyboard :=
  mkPyboard (pin_out st) v (ticks_ms st) (edges st ++ [(ticks_ms st, v)]).

(** [utime.sleep_ms(ms)] *)
Definition sleep_ms (ms : Z) (st : Pyboard) : Pyboard :=
  mkPyboard (pin_out st) (level st) (ticks_ms st + ms) (edges st).

(** One turn of [while True]. *)
Definition turn (st : Pyboard) : Pyboard :=
  sleep_ms 5000 (pin_value false (sleep_ms 5000 (pin_value true st))).

(** [main()] never returns; this is the board after [n] turns of its loop. *)
Definition main (n : nat) : Pyboard := Nat.iter n turn (pin_init power_on).

(** *** Notions used in the statements about the square wave *)

(** The level the recorded changes give the pin at time [t]: that of the
    last change made at or before [t]. *)
Definition level_at (changes : list (Z * bool)) (t : Z) : option bool :=
  fold_left (fun cur e => if (fst e <=? t)%Z then Some (snd e) else cur)
            changes None.

End Square.

(** ** Notions used in the statements about the two programs together *)

Module Link.
Import Py Gui StepResponse.

(** The text can be sent as ASCII. *)
Definition ascii_text (s : string) : bool :=
  forallb (fun x => (Byte.to_N x <? 128)%N) (list_byte_of_string s).

(** The text holds no comma. *)
Definition comma_free (s : string) : bool :=
  forallb (fun c => negb (c =? ",")%char) (list_ascii_of_string s).

(** What the host makes of the voltage the board prints for the sample
    [val]. *)
Definition read_voltage (hw : Board) (val : Z) : option pyfloat :=
  float (strip (str_float hw (adc_voltage val))).

(** The board's text for the voltage of [val] is ASCII without a comma and
    reads as a number. *)
Definition readable (hw : Board) (val : Z) : bool :=
  ascii_text (str_float hw (adc_voltage val))
  && comma_free (str_float hw (adc_voltage val))
  && match read_voltage hw val with
     | Some _ => true
     | None => false
     end.

(** The characters of a decimal number as [str] prints it. *)
Definition uint_chars (d : Decimal.uint) : list ascii :=
  list_ascii_of_string (NilEmpty.string_of_uint d).

(** One step of [digits_value]. *)
Definition digit_step (acc : Z) (c : ascii) : Z := (10 * acc + digit_value c)%Z.

(** The text is made of white space only, in the sense of [str.isspace]. *)
Definition blank (s : string) : bool :=
  forallb isspace (list_ascii_of_string s).

(** The text is made of the white space of the C library only. *)
Definition c_blank (s : string) : bool :=
  forallb is_c_space (list_ascii_of_string s).

(** The time the host reads on data line number [i]. *)
Definition stamp (i : nat) : pyfloat :=
  Finite (inject_Z (Z.of_nat i * TIMER_INTERVAL)).

(** The voltages the host reads for the samples [vals]. *)
Fixpoint voltages (hw : Board) (vals : list Z) : list pyfloat :=
  match vals with
  | [] => []
  | val :: rest =>
      match read_voltage hw val with
      | Some y => y :: voltages hw rest
      | None => voltages hw rest
      end
  end.

(** The states the board program can be in: the module as loaded, and
    whatever timer ticks, [print_vals] and [step_response] make of it. *)
Inductive reachable (hw : Board) : Device -> Prop :=
| reach_boot : reachable hw boot
| reach_tick st : reachable hw st -> reachable hw (timer_int hw st)
| reach_print st : reachable hw st -> reachable hw (print_vals hw st)
| reach_run st period_ms :
    reachable hw st -> reachable hw (snd (step_response hw period_ms st)).

End Link.

(** * Properties of the host program *)

Import Py Gui.

#[local] Arguments String.eqb : simpl never.

Section ReadLoop.

(** The recursion on the incoming lines is the [while] loop of the source:
    test, read a line, decode it, store it, and around again. *)
Lemma while_not_term_unfold data_str xdata ydata ser :
  while_not_term data_str xdata ydata ser =
  if (term_str =? data_str)%string then ret (xdata, ydata) ser
  else (line <- readline ;;
        match decode_ascii (slice_to_minus2 line) with
        | None => raise UnicodeDecodeError
        | Some data_str' =>
            let '(xdata', ydata') := store_line data_str' xdata ydata in
            while_not_term data_str' xdata' ydata'
        end) ser.
Proof.
  unfold while_not_term, bind, readline, ret, raise.
  destruct ser as [lines log]; simpl.
  destruct lines as [|line rest]; simpl;
    destruct (term_str =? data_str)%string; try reflexivity.
  destruct (decode_ascii (slice_to_minus2 line)); [|reflexivity].
  destruct (store_line s xdata ydata); reflexivity.
Qed.

Lemma read_loop_term lines log xdata ydata :
  read_loop lines log term_str xdata ydata
  = (Returned (xdata, ydata), mkSerial lines log).
Proof. destruct lines; reflexivity. Qed.

Lemma read_loop_nil log data_str xdata ydata :
  data_str <> term_str ->
  read_loop [] log data_str xdata ydata
  = (Blocked, mkSerial [] (log ++ [ReadLine])).
Proof.
  intros Hne; simpl.
  destruct (String.eqb_spec term_str data_str); [congruence | reflexivity].
Qed.

Lemma read_loop_cons line rest log data_str xdata ydata :
  data_str <> term_str ->
  read_loop (line :: rest) log data_str xdata ydata =
  match decoded line with
  | None => (Raised UnicodeDecodeError, mkSerial rest (log ++ [ReadLine]))
  | Some data_str' =>
      let '(xdata', ydata') := store_line data_str' xdata ydata in
      read_loop rest (log ++ [ReadLine]) data_str' xdata' ydata'
  end.
Proof.
  intros Hne; simpl.
  destruct (String.eqb_spec term_str data_str); [congruence | reflexivity].
Qed.

Lemma store_line_term xdata ydata :
  store_line term_str xdata ydata = (xdata, ydata).
Proof. reflexivity. Qed.

Lemma store_line_fields line s xdata ydata :
  decoded line = Some s ->
  store_line s xdata ydata =
  match fields line with
  | Some (x, y) => (xdata ++ [x], ydata ++ [y])
  | None => (xdata, ydata)
  end.
Proof.
  intros Hd; unfold store_line, fields; rewrite Hd.
  destruct (split_comma s) as [|f0 [|f1 fs]]; simpl; try reflexivity.
  destruct (float (strip f0)); [|reflexivity].
  destruct (float (strip f1)); reflexivity.
Qed.


Lemma is_sentinel_true line :
  is_sentinel line = true <-> decoded line = Some term_str.
Proof.
  unfold is_sentinel; destruct (decoded line) as [s|].
  - destruct (String.eqb_spec term_str s); split; intros H;
      try reflexivity; try discriminate; congruence.
  - split; discriminate.
Qed.


(** The loop only reads: its calls are [ReadLine], at most one per line
    and one more when it blocks. *)
Lemma read_loop_calls lines :
  forall log data_str xdata ydata,
  exists k,
    k <= S (List.length lines)
    /\ (data_str <> term_str -> 1 <= k)
    /\ calls (snd (read_loop lines log data_str xdata ydata))
       = log ++ repeat ReadLine k.
Proof.
  induction lines as [|line rest IH]; intros log data_str xdata ydata.
  - simpl; destruct (String.eqb_spec term_str data_str); simpl.
    + exists 0; repeat split; [lia | congruence | now rewrite app_nil_r].
    + exists 1; repeat split; lia.
  - simpl; destruct (String.eqb_spec term_str data_str); simpl.
    + exists 0; repeat split; [lia | congruence | now rewrite app_nil_r].
    + destruct (decode_ascii (slice_to_minus2 line)); simpl.
      * destruct (store_line s xdata ydata) as [x' y'].
        destruct (IH (log ++ [ReadLine]) s x' y') as (k & Hk & _ & Hc).
        exists (S k); repeat split; [lia | lia |].
        rewrite Hc, <- app_assoc; reflexivity.
      * exists 1; repeat split; lia.
Qed.

(** What a successful return holds: the pairs of the well-formed lines
    before the terminating line, appended in order. *)
Lemma read_loop_returned lines :
  forall log data_str xdata ydata xs ys,
    data_str <> term_str ->
    fst (read_loop lines log data_str xdata ydata) = Returned (xs, ys) ->
    xs = xdata ++ map fst (pairs (before_sentinel lines))
    /\ ys = ydata ++ map snd (pairs (before_sentinel lines)).
Proof.
  induction lines as [|line rest IH];
    intros log data_str xdata ydata xs ys Hne Hret.
  - rewrite read_loop_nil in Hret by assumption; discriminate.
  - rewrite read_loop_cons in Hret by assumption.
    simpl before_sentinel. unfold is_sentinel.
    destruct (decoded line) as [s|] eqn:Hd; [|discriminate].
    rewrite (store_line_fields line s) in Hret by assumption.
    destruct (String.eqb_spec term_str s) as [Heq|Hneq].
    + subst s.
      assert (Hf : fields line = None).
      { unfold fields; rewrite Hd; reflexivity. }
      rewrite Hf, read_loop_term in Hret; simpl in Hret.
      inversion Hret; subst; simpl; now rewrite !app_nil_r.
    + simpl pairs.
      destruct (fields line) as [[x y]|].
      * apply IH in Hret; [|congruence].
        simpl; rewrite <- !app_assoc in Hret; exact Hret.
      * apply IH in Hret; [exact Hret | congruence].
Qed.

(** When every line before a terminating line decodes, the loop returns. *)
Lemma read_loop_returns pre :
  forall line post log data_str xdata ydata,
    Forall decodable pre ->
    is_sentinel line = true ->
    data_str <> term_str ->
    exists xs ys,
      fst (read_loop (pre ++ line :: post) log data_str xdata ydata)
      = Returned (xs, ys).
Proof.
  induction pre as [|l pre IH];
    intros line post log data_str xdata ydata Hdec Hs Hne.
  - simpl app. rewrite read_loop_cons by assumption.
    apply is_sentinel_true in Hs; rewrite Hs.
    rewrite store_line_term, read_loop_term; simpl; eauto.
  - simpl app. rewrite read_loop_cons by assumption.
    inversion Hdec as [|? ? Hl Hpre]; subst.
    destruct (decoded l) as [s|] eqn:Hd; [|now elim Hl].
    destruct (store_line s xdata ydata) as [x' y'].
    destruct (String.eqb_spec s term_str) as [Heq|Hneq].
    + subst s; rewrite read_loop_term; simpl; eauto.
    + apply IH; assumption.
Qed.

(** Without a terminating line the loop never returns: it blocks once
    the lines are used up. *)
Lemma read_loop_blocks lines :
  forall log data_str xdata ydata,
    Forall decodable lines ->
    Forall (fun l => is_sentinel l = false) lines ->
    data_str <> term_str ->
    fst (read_loop lines log data_str xdata ydata) = Blocked.
Proof.
  induction lines as [|l rest IH];
    intros log data_str xdata ydata Hdec Hns Hne.
  - rewrite read_loop_nil by assumption; reflexivity.
  - rewrite read_loop_cons by assumption.
    inversion Hdec as [|? ? Hl Hrest]; inversion Hns as [|? ? Hsl Hsrest];
      subst.
    destruct (decoded l) as [s|] eqn:Hd; [|now elim Hl].
    destruct (store_line s xdata ydata) as [x' y'].
    apply IH; try assumption.
    intros ->. unfold is_sentinel in Hsl; rewrite Hd in Hsl.
    now rewrite String.eqb_refl in Hsl.
Qed.

(** It never returns in that case, whatever the bytes. *)
Lemma read_loop_no_sentinel lines :
  forall log data_str xdata ydata,
    Forall (fun l => is_sentinel l = false) lines ->
    data_str <> term_str ->
    fst (read_loop lines log data_str xdata ydata) = Blocked
    \/ fst (read_loop lines log data_str xdata ydata)
       = Raised UnicodeDecodeError.
Proof.
  induction lines as [|l rest IH]; intros log data_str xdata ydata Hns Hne.
  - rewrite read_loop_nil by assumption; now left.
  - rewrite read_loop_cons by assumption.
    inversion Hns as [|? ? Hsl Hsrest]; subst.
    destruct (decoded l) as [s|] eqn:Hd; [|now right].
    destruct (store_line s xdata ydata) as [x' y'].
    apply IH; try assumption.
    intros ->. unfold is_sentinel in Hsl; rewrite Hd in Hsl.
    now rewrite String.eqb_refl in Hsl.
Qed.


End ReadLoop.

Section Session.

Lemma close_on_exit_fst {A} (p : outcome A * Serial) :
  fst (close_on_exit p) = fst p.
Proof. destruct p as [[a|e|] ser]; reflexivity. Qed.

Lemma close_on_exit_calls {A} (p : outcome A * Serial) :
  calls (snd (close_on_exit p))
  = calls (snd p) ++ match fst p with Blocked => [] | _ => [Close] end.
Proof.
  destruct p as [[a|e|] ser]; simpl; try reflexivity.
  now rewrite app_nil_r.
Qed.

(** With six lines to skip, the session is the handshake followed by the
    read loop on what comes after them. *)
Lemma session_banner b rest :
  List.length b = 6 ->
  session (b ++ rest)
  = close_on_exit
      (read_loop rest (handshake [x33; x0a]) EmptyString [] []).
Proof.
  intros Hb.
  destruct b as [|b1 [|b2 [|b3 [|b4 [|b5 [|b6 [|b7 b]]]]]]];
    try discriminate Hb.
  reflexivity.
Qed.

(** With fewer, it blocks while skipping the banner. *)
Lemma session_short stream :
  List.length stream < 6 ->
  session stream
  = (Blocked,
     mkSerial [] (firstn (6 + List.length stream) (handshake [x33; x0a]))).
Proof.
  intros Hs.
  destruct stream as [|b1 [|b2 [|b3 [|b4 [|b5 [|b6 b]]]]]];
    try reflexivity.
  simpl in Hs; lia.
Qed.

Lemma session_long stream :
  6 <= List.length stream ->
  session stream
  = close_on_exit
      (read_loop (skipn 6 stream) (handshake [x33; x0a]) EmptyString [] []).
Proof.
  intros Hs.
  rewrite <- (firstn_skipn 6 stream) at 1.
  apply session_banner. rewrite length_firstn; lia.
Qed.

Lemma result_long stream :
  6 <= List.length stream ->
  result stream
  = fst (read_loop (skipn 6 stream) (handshake [x33; x0a]) EmptyString [] []).
Proof.
  intros Hs; unfold result.
  now rewrite session_long, close_on_exit_fst.
Qed.

Lemma result_banner b rest :
  List.length b = 6 ->
  result (b ++ rest)
  = fst (read_loop rest (handshake [x33; x0a]) EmptyString [] []).
Proof.
  intros Hb; unfold result.
  now rewrite session_banner, close_on_exit_fst.
Qed.

Lemma result_short stream :
  List.length stream < 6 -> result stream = Blocked.
Proof.
  intros Hs; unfold result; now rewrite session_short.
Qed.

Lemma empty_not_term : EmptyString <> term_str.
Proof. discriminate. Qed.

Lemma pairs_length lines :
  List.length (pairs lines) = List.length (filter well_formed lines).
Proof.
  induction lines as [|l rest IH]; [reflexivity|].
  simpl; unfold well_formed.
  destruct (fields l); simpl; now rewrite IH.
Qed.


Lemma slice_one_terminator (body : bytes) (c t : byte) :
  slice_to_minus2 (body ++ [c; t]) = body.
Proof.
  unfold slice_to_minus2; rewrite length_app; simpl.
  replace (List.length body + 2 - 2) with (List.length body + 0) by lia.
  rewrite firstn_app_2; simpl; now rewrite app_nil_r.
Qed.

End Session.

Section HostClaims.

Lemma Forall_skipn_of {A} (P : A -> Prop) n (l : list A) :
  Forall P l -> Forall P (skipn n l).
Proof.
  intros H. rewrite <- (firstn_skipn n l) in H.
  apply Forall_app in H; tauto.
Qed.

(** C4.  On every return of [get_data] the two arrays have the same
    length, the number of well-formed lines received between the boot
    banner and the terminating line; they hold the numeric fields of
    those lines in arrival order.  A stream whose lines decode and that
    carries the terminating line does return.  The lines 0,1.0 10,1.2
    20,1.4 End give xs = 0, 10, 20 and ys = 1.0, 1.2, 1.4. *)
Theorem C4_get_data_aligned :
  (forall stream xs ys,
      result stream = Returned (xs, ys) ->
      let seen := before_sentinel (skipn 6 stream) in
      xs = map fst (pairs seen)
      /\ ys = map snd (pairs seen)
      /\ List.length xs = List.length ys
      /\ List.length xs = List.length (filter well_formed seen))
  /\ (forall b pre line post,
        List.length b = 6 ->
        Forall decodable pre ->
        is_sentinel line = true ->
        exists xs ys, result (b ++ pre ++ line :: post) = Returned (xs, ys))
  /\ result (banner ++ map crlf ["0,1.0"; "10,1.2"; "20,1.4"; "End"]%string)
     = returns [0; 10; 20]%Q [1; 12 # 10; 14 # 10]%Q.
Proof.
  split; [|split].
  - intros stream xs ys Hret seen.
    destruct (Nat.lt_ge_cases (List.length stream) 6) as [Hs|Hs].
    { rewrite result_short in Hret by assumption; discriminate. }
    rewrite result_long in Hret by assumption.
    apply read_loop_returned in Hret; [|apply empty_not_term].
    destruct Hret as [Hx Hy]; simpl in Hx, Hy; fold seen in Hx, Hy.
    subst xs ys; repeat split.
    + now rewrite !length_map.
    + rewrite length_map; apply pairs_length.
  - intros b pre line post Hb Hpre Hline.
    rewrite result_banner by assumption.
    apply read_loop_returns; auto using empty_not_term.
  - vm_compute; reflexivity.
Qed.

Lemma C4_get_data_aligned_witness :
  let stream := banner ++ map crlf ["0,1.0"; "oops"; "20,1.4"; "End"; "30,2"]%string in
  (map decimal [0; 20]%Q = map fst (pairs (before_sentinel (skipn 6 stream)))
   /\ List.length (map decimal [0; 20]%Q)
      = List.length (filter well_formed (before_sentinel (skipn 6 stream))))
  /\ exists xs ys, result stream = Returned (xs, ys).
Proof.
  intros stream; split.
  - destruct (proj1 C4_get_data_aligned stream
                (map decimal [0; 20]%Q) (map decimal [1; 14 # 10]%Q))
      as (Hx & _ & _ & Hn).
    + vm_compute; reflexivity.
    + split; assumption.
  - apply (proj1 (proj2 C4_get_data_aligned) banner
             (map crlf ["0,1.0"; "oops"; "20,1.4"]%string)
             (crlf "End") [crlf "30,2"]).
    + reflexivity.
    + repeat constructor; discriminate.
    + reflexivity.
Defined.




(** C9.  The loop stops on a received line exactly when the line without
    its last two bytes, decoded as ASCII, is the text End, and then the
    arrays are returned as they were: the terminating line adds nothing.
    Any other line that decodes makes the loop go on with the next line.
    The bytes End followed by a single terminator byte decode to En, and
    the loop goes on after them. *)
Theorem C9_sentinel_after_slicing :
  (forall body c t, decoded (body ++ [c; t]) = decode_ascii body)
  /\ (forall line rest log data_str xdata ydata,
        data_str <> term_str ->
        decoded line = Some term_str ->
        read_loop (line :: rest) log data_str xdata ydata
        = (Returned (xdata, ydata), mkSerial rest (log ++ [ReadLine])))
  /\ (forall line s rest log data_str xdata ydata,
        data_str <> term_str ->
        decoded line = Some s ->
        s <> term_str ->
        read_loop (line :: rest) log data_str xdata ydata
        = read_loop rest (log ++ [ReadLine]) s
            (fst (store_line s xdata ydata)) (snd (store_line s xdata ydata)))
  /\ (forall (t : byte) rest log data_str xdata ydata,
        data_str <> term_str ->
        decoded (list_byte_of_string "End" ++ [t]) = Some "En"%string
        /\ read_loop ((list_byte_of_string "End" ++ [t]) :: rest)
             log data_str xdata ydata
           = read_loop rest (log ++ [ReadLine]) "En" xdata ydata)
  /\ result (banner ++ [list_byte_of_string "End" ++ [x0a]]) = Blocked
  /\ result (banner ++ [crlf "End"]) = Returned ([], []).
Proof.
  split; [|split; [|split; [|split; [|split]]]].
  - intros body c t; unfold decoded; now rewrite slice_one_terminator.
  - intros line rest log data_str xdata ydata Hne Hd.
    rewrite read_loop_cons by assumption.
    now rewrite Hd, store_line_term, read_loop_term.
  - intros line s rest log data_str xdata ydata Hne Hd Hs.
    rewrite read_loop_cons by assumption.
    rewrite Hd; now destruct (store_line s xdata ydata).
  - intros t rest log data_str xdata ydata Hne.
    split; [reflexivity|].
    now rewrite read_loop_cons by assumption.
  - vm_compute; reflexivity.
  - vm_compute; reflexivity.
Qed.

Lemma C9_sentinel_after_slicing_witness :
  read_loop [crlf "End"; crlf "1,2"] [] EmptyString [] []
  = (Returned ([], []), mkSerial [crlf "1,2"] [ReadLine])
  /\ read_loop [list_byte_of_string "End" ++ [x0a]; crlf "End"]
       [] EmptyString [] []
     = read_loop [crlf "End"] [ReadLine] "En" [] [].
Proof.
  split.
  - apply (proj1 (proj2 C9_sentinel_after_slicing)
             (crlf "End") [crlf "1,2"] [] EmptyString [] []).
    + discriminate.
    + reflexivity.
  - apply (proj1 (proj2 (proj2 (proj2 C9_sentinel_after_slicing)))
             x0a [crlf "End"] [] EmptyString [] []).
    discriminate.
Defined.

(** C1, as stated, fails: on a stream without the terminating line the
    call stays blocked in [readline()]; no timeout is raised. *)
Lemma C1_counterexample :
  let stream := banner ++ map crlf ["0,1.0"; "10,1.2"]%string in
  Forall (fun l => is_sentinel l = false) stream
  /\ result stream = Blocked
  /\ ~ (exists e, result stream = Raised e
                  /\ exn_name e = "AcquisitionTimeout"%string).
Proof.
  intros stream; split; [|split].
  - repeat constructor.
  - vm_compute; reflexivity.
  - intros (e & He & _). vm_compute in He; discriminate.
Qed.

(** C1, amended.  On a stream that never carries the terminating line
    after the boot banner, [get_data] never returns a dataset, partial or
    complete, and it has no deadline: once the received lines are used up
    it stays blocked in [readline()].  The only other way out is the
    [UnicodeDecodeError] of a line that is not ASCII.  This holds after
    any number of lines of an endless stream as well. *)
Theorem C1_no_sentinel_never_returns :
  (forall stream,
      Forall (fun l => is_sentinel l = false) (skipn 6 stream) ->
      result stream = Blocked \/ result stream = Raised UnicodeDecodeError)
  /\ (forall stream,
        Forall (fun l => is_sentinel l = false) (skipn 6 stream) ->
        Forall decodable (skipn 6 stream) ->
        result stream = Blocked)
  /\ (forall (lines : nat -> bytes) (n : nat),
        (forall i, is_sentinel (lines i) = false) ->
        (forall xs ys, result (map lines (seq 0 n)) <> Returned (xs, ys))
        /\ ((forall i, decodable (lines i)) ->
            result (map lines (seq 0 n)) = Blocked)).
Proof.
  assert (H1 : forall stream,
             Forall (fun l => is_sentinel l = false) (skipn 6 stream) ->
             result stream = Blocked
             \/ result stream = Raised UnicodeDecodeError).
  { intros stream Hns.
    destruct (Nat.lt_ge_cases (List.length stream) 6) as [Hs|Hs].
    - left; now apply result_short.
    - rewrite result_long by assumption.
      apply read_loop_no_sentinel; auto using empty_not_term. }
  assert (H2 : forall stream,
             Forall (fun l => is_sentinel l = false) (skipn 6 stream) ->
             Forall decodable (skipn 6 stream) ->
             result stream = Blocked).
  { intros stream Hns Hdec.
    destruct (Nat.lt_ge_cases (List.length stream) 6) as [Hs|Hs].
    - now apply result_short.
    - rewrite result_long by assumption.
      apply read_loop_blocks; auto using empty_not_term. }
  split; [exact H1 | split; [exact H2 |]].
  intros lines n Hns; split.
  - intros xs ys Hret.
    destruct (H1 (map lines (seq 0 n))) as [Hb|Hb].
    + apply Forall_skipn_of, Forall_map, Forall_forall; intros; apply Hns.
    + congruence.
    + congruence.
  - intros Hdec; apply H2; apply Forall_skipn_of, Forall_map, Forall_forall;
      intros; auto.
Qed.

Lemma C1_no_sentinel_never_returns_witness :
  (result (banner ++ map crlf ["0,1.0"; "10,1.2"]%string) = Blocked)
  /\ (result (banner ++ [[x30; xff; x0d; x0a]]) = Blocked
      \/ result (banner ++ [[x30; xff; x0d; x0a]]) = Raised UnicodeDecodeError)
  /\ result (map (fun i => if Nat.even i then crlf "1,2.5" else crlf "noise")
               (seq 0 9)) = Blocked.
Proof.
  split; [|split].
  - apply (proj1 (proj2 C1_no_sentinel_never_returns)).
    + repeat constructor.
    + repeat constructor; discriminate.
  - apply (proj1 C1_no_sentinel_never_returns).
    repeat constructor.
  - apply (proj2 (proj2 C1_no_sentinel_never_returns)
             (fun i => if Nat.even i then crlf "1,2.5" else crlf "noise") 9).
    + intros i; destruct (Nat.even i); reflexivity.
    + intros i; destruct (Nat.even i); discriminate.
Defined.

(** C8, as stated, fails: [get_data] takes no parameter, and the line it
    sends after the banner is always the same; a caller who wants the
    parameter 5 sent does not get it. *)
Lemma C8_counterexample :
  let trigger := list_byte_of_string "5" ++ [x0a] in
  let stream := banner ++ [crlf "End"] in
  ~ (exists tail, trace stream = handshake trigger ++ tail).
Proof.
  intros trigger stream (tail & H).
  vm_compute in H. discriminate H.
Qed.

(** C8, amended.  Every session makes, once and in this order, before the
    read loop: open, discard the output buffer, send byte 03, discard the
    input buffer, send bytes 02 04, read six lines, send the fixed line
    made of the digit 3 and a line feed.  What follows is only the reads
    of the loop and the closing of the port.  With fewer than six lines
    the session blocks inside the handshake.  The six banner lines do not
    influence the result. *)
Theorem C8_handshake_then_loop :
  handshake [x33; x0a]
  = [Open; ResetOutputBuffer; Write [x03]; ResetInputBuffer;
     Write [x02; x04]; ReadLine; ReadLine; ReadLine; ReadLine; ReadLine;
     ReadLine; Write (list_byte_of_string "3" ++ [x0a])]
  /\ (forall stream,
        6 <= List.length stream ->
        exists k,
          1 <= k <= S (List.length stream - 6)
          /\ trace stream
             = handshake [x33; x0a] ++ repeat ReadLine k
               ++ match result stream with
                  | Blocked => []
                  | _ => [Close]
                  end)
  /\ (forall stream,
        List.length stream < 6 ->
        result stream = Blocked
        /\ trace stream
           = firstn (6 + List.length stream) (handshake [x33; x0a]))
  /\ (forall b b' rest,
        List.length b = 6 -> List.length b' = 6 ->
        result (b ++ rest) = result (b' ++ rest)).
Proof.
  split; [reflexivity | split; [|split]].
  - intros stream Hs.
    destruct (read_loop_calls (skipn 6 stream) (handshake [x33; x0a])
                EmptyString [] []) as (k & Hk & Hk1 & Hc).
    exists k; split.
    + rewrite length_skipn in Hk. split; [apply Hk1, empty_not_term | lia].
    + unfold trace. rewrite session_long by assumption.
      rewrite close_on_exit_calls, Hc, <- app_assoc.
      now rewrite <- result_long by assumption.
  - intros stream Hs; split.
    + now apply result_short.
    + unfold trace; now rewrite session_short.
  - intros b b' rest Hb Hb'. now rewrite !result_banner.
Qed.

Lemma C8_handshake_then_loop_witness :
  (exists k,
      1 <= k <= S (List.length (banner ++ [crlf "1,2"; crlf "End"]) - 6)
      /\ trace (banner ++ [crlf "1,2"; crlf "End"])
         = handshake [x33; x0a] ++ repeat ReadLine k
           ++ match result (banner ++ [crlf "1,2"; crlf "End"]) with
              | Blocked => []
              | _ => [Close]
              end)
  /\ result (firstn 4 banner) = Blocked
  /\ result (banner ++ [crlf "End"]) = result (rev banner ++ [crlf "End"]).
Proof.
  split; [|split].
  - apply (proj1 (proj2 C8_handshake_then_loop)). simpl; lia.
  - apply (proj1 (proj2 (proj2 C8_handshake_then_loop))). simpl; lia.
  - apply (proj2 (proj2 (proj2 C8_handshake_then_loop))); reflexivity.
Defined.

End HostClaims.

(** * Properties of the board program *)

Import StepResponse.

Section Loops.

Variable hw : Board.

(** [get] cannot fail where [print_vals] calls it. *)
Lemma any_get q : any q = true -> get q <> None.
Proof. unfold any, get; destruct (items q); discriminate. Qed.

Lemma not_any_get q : any q = false -> get q = None.
Proof. unfold any, get; destruct (items q); [reflexivity | discriminate]. Qed.

(** The loop of [print_vals], one turn at a time. *)
Lemma print_vals_from_eq t st :
  print_vals_from hw t st =
  match get (int_queue st) with
  | None => st
  | Some (val, q') =>
      print_vals_from hw (t + TIMER_INTERVAL)%Z
        (set_queue q' (print (csv_line hw t val) st))
  end.
Proof.
  funelim (print_vals_from hw t st).
  - now rewrite not_any_get by assumption.
  - match goal with H : get _ = _ |- _ => now rewrite H end.
  - match goal with H : get _ = _ |- _ => now rewrite H end.
Qed.

(** The polling loop, one turn at a time. *)
Lemma wait_until_full_eq st :
  wait_until_full hw st =
  if full (int_queue st) then st else wait_until_full hw (timer_int hw st).
Proof.
  funelim (wait_until_full hw st);
    match goal with H : full _ = _ |- _ => now rewrite H end.
Qed.

(** Draining prints one line per queued value, oldest first, stamped from
    [k * TIMER_INTERVAL] in steps of [TIMER_INTERVAL], and empties the
    queue. *)
Lemma print_vals_from_spec vals :
  forall k st,
    items (int_queue st) = vals ->
    print_vals_from hw (Z.of_nat k * TIMER_INTERVAL)%Z st =
    mkDevice
      (mkQueue (capacity (int_queue st)) [] (overflow (int_queue st)))
      (conversions st) (pc0_out st) (pc0 st) (tim0 st)
      (stdout st
       ++ map (fun iv =>
                 csv_line hw (Z.of_nat (fst iv) * TIMER_INTERVAL) (snd iv))
            (combine (seq k (List.length vals)) vals))
      (board_calls st).
Proof.
  induction vals as [|v rest IH]; intros k st Hitems;
    rewrite print_vals_from_eq; unfold get; rewrite Hitems.
  - destruct st as [[cap its ovf] conv po pc tm out log]; simpl in *; subst its.
    now rewrite app_nil_r.
  - replace (Z.of_nat k * TIMER_INTERVAL + TIMER_INTERVAL)%Z
      with (Z.of_nat (S k) * TIMER_INTERVAL)%Z by lia.
    rewrite IH by reflexivity.
    simpl. rewrite <- app_assoc. reflexivity.
Qed.

(** Polling ends when the timer has filled the queue: the conversions
    made meanwhile are appended in order, nothing is dropped. *)
Lemma wait_until_full_spec n :
  forall st,
    capacity (int_queue st) - num_in (int_queue st) = n ->
    wait_until_full hw st =
    mkDevice
      (mkQueue (capacity (int_queue st))
         (items (int_queue st)
          ++ map (adc0_read hw) (seq (conversions st) n))
         (overflow (int_queue st)))
      (conversions st + n) (pc0_out st) (pc0 st) (tim0 st) (stdout st)
      (board_calls st).
Proof.
  induction n as [|n IH]; intros st Hn; rewrite wait_until_full_eq.
  - assert (Hf : full (int_queue st) = true)
      by (unfold full; apply Nat.leb_le; lia).
    rewrite Hf.
    destruct st as [[cap its ovf] conv po pc tm out log]; simpl.
    now rewrite app_nil_r, Nat.add_0_r.
  - assert (Hf : full (int_queue st) = false)
      by (unfold full; apply Nat.leb_gt; lia).
    rewrite Hf, IH.
    + unfold timer_int, put; rewrite Hf; simpl.
      rewrite <- app_assoc, Nat.add_succ_r. reflexivity.
    + unfold timer_int, put, num_in in *; rewrite Hf; simpl.
      rewrite length_app; simpl; lia.
Qed.

(** Ticks that reach a full queue change nothing in it but the count of
    overflows. *)
Lemma late_ticks_spec k :
  forall st,
    full (int_queue st) = true ->
    Nat.iter k (timer_int hw) st =
    mkDevice
      (mkQueue (capacity (int_queue st)) (items (int_queue st))
         (overflow (int_queue st) + k))
      (conversions st + k) (pc0_out st) (pc0 st) (tim0 st) (stdout st)
      (board_calls st).
Proof.
  induction k as [|k IH]; intros st Hf.
  - destruct st as [[cap its ovf] conv po pc tm out log]; simpl.
    now rewrite !Nat.add_0_r.
  - simpl Nat.iter. rewrite IH by assumption.
    unfold timer_int, put; simpl.
    change (full (mkQueue (capacity (int_queue st)) (items (int_queue st))
                    (overflow (int_queue st) + k)))
      with (full (int_queue st)).
    rewrite Hf, !Nat.add_succ_r. reflexivity.
Qed.

(** A complete run: what it leaves in the queue, on the pins and on the
    standard output. *)
Lemma step_response_run period_ms st :
  period_ms <> 0%Z ->
  timer_accepts hw (1000 / period_ms) = true ->
  step_response hw period_ms st =
  (Returned tt,
   mkDevice
     (mkQueue (capacity (int_queue st)) []
        (overflow (int_queue st) + late_ticks hw))
     (conversions st
      + (capacity (int_queue st) - num_in (int_queue st))
      + late_ticks hw)
     true false None
     (stdout st ++ data_lines hw TIMER_INTERVAL (drained hw st)
      ++ ["End"%string])
     (board_calls st
      ++ [PinInit; TimerInit (1000 / period_ms); PinValue true;
          TimerDeinit; PinValue false])).
Proof.
  intros Hp Hacc. unfold step_response, frequency.
  apply Z.eqb_neq in Hp; rewrite Hp, Hacc.
  rewrite (wait_until_full_spec
             (capacity (int_queue st) - num_in (int_queue st)))
    by reflexivity.
  rewrite late_ticks_spec.
  2:{ unfold full, num_in; simpl. apply Nat.leb_le.
      rewrite length_app, length_map, length_seq. unfold num_in. lia. }
  unfold print_vals.
  change 0%Z with (Z.of_nat 0 * TIMER_INTERVAL)%Z.
  erewrite print_vals_from_spec by reflexivity.
  unfold print, data_lines, drained; simpl.
  rewrite <- !app_assoc. reflexivity.
Qed.

End Loops.

Section Lines.

Variable hw : Board.

Lemma data_lines_length period vals :
  List.length (data_lines hw period vals) = List.length vals.
Proof.
  unfold data_lines.
  rewrite length_map, length_combine, length_seq. apply Nat.min_id.
Qed.

Lemma nth_error_numbered (vals : list Z) :
  forall k i v,
    nth_error vals i = Some v ->
    nth_error (combine (seq k (List.length vals)) vals) i = Some (k + i, v).
Proof.
  induction vals as [|w rest IH]; intros k i v Hi.
  - destruct i; discriminate.
  - destruct i as [|i]; simpl in *.
    + inversion Hi; now rewrite Nat.add_0_r.
    + rewrite (IH (S k) i v Hi). now rewrite Nat.add_succ_r.
Qed.

(** Line number [i] carries the stamp [i * period] and sample number [i]. *)
Lemma data_lines_nth period vals i v :
  nth_error vals i = Some v ->
  nth_error (data_lines hw period vals) i
  = Some (csv_line hw (Z.of_nat i * period) v).
Proof.
  intros Hi; unfold data_lines.
  rewrite nth_error_map, (nth_error_numbered vals 0 i v Hi). reflexivity.
Qed.

Lemma str_int_head t :
  exists c s, str_int t = String c s /\ c <> "E"%char.
Proof.
  unfold str_int; destruct t as [|p|p]; simpl.
  - eexists _, _; split; [reflexivity | discriminate].
  - destruct (Pos.to_uint p); simpl;
      eexists _, _; (split; [reflexivity | discriminate]).
  - eexists _, _; split; [reflexivity | discriminate].
Qed.

(** No data line can be taken for the terminating line. *)
Lemma csv_line_not_End t v : csv_line hw t v <> "End"%string.
Proof.
  unfold csv_line; simpl.
  destruct (str_int_head t) as (c & s & Hs & Hc); rewrite Hs; simpl.
  intros H; inversion H; congruence.
Qed.

Lemma data_lines_no_End period vals :
  ~ In "End"%string (data_lines hw period vals).
Proof.
  unfold data_lines; intros Hin.
  apply in_map_iff in Hin; destruct Hin as (iv & Heq & _).
  now apply csv_line_not_End in Heq.
Qed.

Lemma drained_length st :
  num_in (int_queue st) <= capacity (int_queue st) ->
  List.length (drained hw st) = capacity (int_queue st).
Proof.
  intros Hle; unfold drained.
  rewrite length_app, length_map, length_seq. unfold num_in in *. lia.
Qed.

(** A call that returns had a non-zero period and a frequency that the
    timer took. *)
Lemma step_response_returned period_ms st st' :
  step_response hw period_ms st = (Returned tt, st') ->
  period_ms <> 0%Z /\ timer_accepts hw (1000 / period_ms) = true.
Proof.
  unfold step_response, frequency; intros H.
  destruct (Z.eqb_spec period_ms 0); [discriminate|].
  destruct (timer_accepts hw (1000 / period_ms)); [auto | discriminate].
Qed.

End Lines.

Section BoardClaims.

(** C2.  What the program does with the time stamps: line number [i] of a
    run carries [i * TIMER_INTERVAL], that is [10 * i], whatever
    [period_ms] the run was given.  With a period of 20 the lines are
    stamped 0, 10, 20 where [i * period_ms] is 0, 20, 40; with the period
    10 the stamps 0, 10, 20 are those of the claim. *)
Theorem C2_timestamps_ignore_period :
  (forall hw period_ms st st' i v,
      step_response hw period_ms st = (Returned tt, st') ->
      nth_error (drained hw st) i = Some v ->
      nth_error (stdout st') (List.length (stdout st) + i)
      = Some (csv_line hw (Z.of_nat i * TIMER_INTERVAL) v))
  /\ firstn 3 (stdout (snd (step_response bench 20 boot)))
     = ["0,0.000"; "10,0.016"; "20,0.032"]%string
  /\ firstn 3 (data_lines bench 20 (drained bench boot))
     = ["0,0.000"; "20,0.016"; "40,0.032"]%string
  /\ firstn 3 (stdout (snd (step_response bench 10 boot)))
     = firstn 3 (data_lines bench 10 (drained bench boot)).
Proof.
  split; [|split; [|split]]; try (vm_compute; reflexivity).
  intros hw period_ms st st' i v Hrun Hi.
  destruct (step_response_returned hw period_ms st st' Hrun) as [Hp Hacc].
  rewrite step_response_run in Hrun by assumption.
  inversion Hrun; subst st'; simpl.
  rewrite nth_error_app2 by lia.
  replace (List.length (stdout st) + i - List.length (stdout st)) with i by lia.
  rewrite nth_error_app1.
  - now apply data_lines_nth.
  - rewrite data_lines_length. apply nth_error_Some. congruence.
Qed.

Lemma C2_timestamps_ignore_period_witness :
  nth_error (stdout (snd (step_response bench 20 boot))) (0 + 2)
  = Some (csv_line bench (Z.of_nat 2 * TIMER_INTERVAL) 40).
Proof.
  apply (proj1 C2_timestamps_ignore_period bench 20%Z boot
           (snd (step_response bench 20 boot)) 2 40%Z).
  - vm_compute; reflexivity.
  - vm_compute; reflexivity.
Defined.

(** C3.  A run of [step_response] that returns has printed, after what was
    on the output before, exactly [QUEUE_SIZE] = 200 data lines and then
    the one line End.  Line number [i] is the stamp, a comma and the
    voltage of sample number [i]; the samples are what the queue held and
    then the conversions in the order the timer made them.  No data line
    is the text End, and the queue is left empty.  A run returns whenever
    the period is not zero and the timer takes the frequency. *)
Theorem C3_run_emits_capacity_lines :
  (forall hw period_ms st st',
      capacity (int_queue st) = QUEUE_SIZE ->
      num_in (int_queue st) <= QUEUE_SIZE ->
      step_response hw period_ms st = (Returned tt, st') ->
      let samples := drained hw st in
      let lines := data_lines hw TIMER_INTERVAL samples in
      stdout st' = stdout st ++ lines ++ ["End"%string]
      /\ List.length lines = 200
      /\ List.length samples = 200
      /\ (forall i v,
            nth_error samples i = Some v ->
            nth_error lines i
            = Some (str_int (Z.of_nat i * TIMER_INTERVAL) ++ ","
                    ++ str_float hw (adc_voltage v))%string)
      /\ ~ In "End"%string lines
      /\ items (int_queue st') = [])
  /\ (forall hw period_ms st,
        period_ms <> 0%Z ->
        timer_accepts hw (1000 / period_ms) = true ->
        exists st', step_response hw period_ms st = (Returned tt, st'))
  /\ (forall hw, drained hw boot = map (adc0_read hw) (seq 0 200)).
Proof.
  split; [|split].
  - intros hw period_ms st st' Hcap Hnum Hrun samples lines.
    destruct (step_response_returned hw period_ms st st' Hrun) as [Hp Hacc].
    rewrite step_response_run in Hrun by assumption.
    inversion Hrun; subst st'; simpl.
    assert (Hlen : List.length samples = 200).
    { unfold samples; rewrite drained_length; [exact Hcap | lia]. }
    split; [reflexivity|].
    split; [unfold lines; now rewrite data_lines_length|].
    split; [exact Hlen|].
    split; [|split; [apply data_lines_no_End | reflexivity]].
    intros i v Hi. unfold lines.
    now rewrite (data_lines_nth hw TIMER_INTERVAL samples i v Hi).
  - intros hw period_ms st Hp Hacc.
    eexists; now apply step_response_run.
  - reflexivity.
Qed.

Lemma C3_run_emits_capacity_lines_witness :
  List.length (data_lines bench TIMER_INTERVAL (drained bench boot)) = 200
  /\ exists st', step_response bench 25 boot = (Returned tt, st').
Proof.
  split.
  - destruct (proj1 C3_run_emits_capacity_lines bench 10%Z boot
                (snd (step_response bench 10 boot)))
      as (_ & Hlen & _).
    + reflexivity.
    + apply Nat.leb_le; reflexivity.
    + vm_compute; reflexivity.
    + exact Hlen.
  - apply (proj1 (proj2 C3_run_emits_capacity_lines) bench 25%Z boot).
    + discriminate.
    + reflexivity.
Defined.

(** C6.  A [put] on a queue that is already full returns at once with the
    queued values unchanged, the incoming value dropped and the overflow
    count one higher; the queue stays full.  So does the timer interrupt
    that reaches a full queue.  With capacity 4, putting 10, 20, 30, 40,
    50 leaves 10, 20, 30, 40, a full queue and an overflow count of 1. *)
Theorem C6_put_on_full_drops :
  (forall q v,
      full q = true ->
      put v q = mkQueue (capacity q) (items q) (S (overflow q))
      /\ full (put v q) = true)
  /\ (forall hw st,
        full (int_queue st) = true ->
        int_queue (timer_int hw st)
        = mkQueue (capacity (int_queue st)) (items (int_queue st))
            (S (overflow (int_queue st))))
  /\ (let q := fold_left (fun q v => put v q) [10; 20; 30; 40; 50]%Z
                 (new_queue 4) in
      items q = [10; 20; 30; 40]%Z /\ full q = true /\ overflow q = 1).
Proof.
  split; [|split].
  - intros q v Hf; unfold put; rewrite Hf; split; [reflexivity|].
    exact Hf.
  - intros hw st Hf; unfold timer_int, put; simpl; now rewrite Hf.
  - vm_compute; auto.
Qed.

Lemma C6_put_on_full_drops_witness :
  put 50%Z (mkQueue 2 [10; 20]%Z 0) = mkQueue 2 [10; 20]%Z 1
  /\ int_queue (timer_int bench (mkDevice (mkQueue 1 [7]%Z 0) 3 true true
                                   (Some 100%Z) [] []))
     = mkQueue 1 [7]%Z 1.
Proof.
  split.
  - apply (proj1 C6_put_on_full_drops (mkQueue 2 [10; 20]%Z 0) 50%Z).
    reflexivity.
  - apply (proj1 (proj2 C6_put_on_full_drops) bench
             (mkDevice (mkQueue 1 [7]%Z 0) 3 true true (Some 100%Z) [] [])).
    reflexivity.
Defined.

Lemma frequency_negative p f :
  (p < 0)%Z -> frequency p = Some f -> (f < 0)%Z.
Proof.
  unfold frequency; intros Hp Hf.
  destruct (Z.eqb_spec p 0); [discriminate|].
  inversion Hf; subst f.
  pose proof (Z.div_mod 1000 p n) as Hdm.
  pose proof (Z.mod_neg_bound 1000 p Hp) as Hm.
  nia.
Qed.

(** C7, as stated, fails: a zero period is not refused with an error of
    its own; the division raises [ZeroDivisionError]. *)
Lemma C7_counterexample :
  step_response bench 0 boot = (Raised ZeroDivisionError, boot)
  /\ ~ (exists e st, step_response bench 0 boot = (Raised e, st)
                     /\ exn_name e = "InvalidPeriod"%string).
Proof.
  split; [reflexivity|].
  intros (e & st & He & Hn). inversion He; subst e. discriminate Hn.
Qed.

(** C7, amended.  With a zero period the call raises [ZeroDivisionError]
    while computing the frequency, before the pin, the timer, the queue
    or the output is touched.  With a negative period the program checks
    nothing itself: it computes a negative frequency and hands it to the
    timer; the call fails, with the timer's [ValueError] and before any
    sample is taken or line printed, exactly when the timer driver
    refuses that frequency, and runs to completion otherwise. *)
Theorem C7_nonpositive_period :
  (forall hw st, step_response hw 0 st = (Raised ZeroDivisionError, st))
  /\ (forall hw period_ms st,
        (period_ms < 0)%Z ->
        exists f,
          frequency period_ms = Some f
          /\ (f < 0)%Z
          /\ (timer_accepts hw f = false ->
              step_response hw period_ms st
              = (Raised ValueError, set_pc0_out st))
          /\ (timer_accepts hw f = true ->
              exists st', step_response hw period_ms st = (Returned tt, st'))).
Proof.
  split; [reflexivity|].
  intros hw period_ms st Hp.
  exists (1000 / period_ms)%Z.
  assert (Hf : frequency period_ms = Some (1000 / period_ms)%Z).
  { unfold frequency. destruct (Z.eqb_spec period_ms 0); [lia | reflexivity]. }
  split; [exact Hf|].
  split; [now apply (frequency_negative period_ms)|].
  split.
  - intros Hacc; unfold step_response; now rewrite Hf, Hacc.
  - intros Hacc; eexists; apply step_response_run; [lia | exact Hacc].
Qed.

Lemma C7_nonpositive_period_witness :
  exists f,
    frequency (-3) = Some f
    /\ (f < 0)%Z
    /\ (timer_accepts bench f = false ->
        step_response bench (-3) boot = (Raised ValueError, set_pc0_out boot))
    /\ (timer_accepts bench f = true ->
        exists st', step_response bench (-3) boot = (Returned tt, st')).
Proof.
  apply (proj2 C7_nonpositive_period bench (-3)%Z boot). reflexivity.
Defined.

(** C10.  The frequency given to the timer is the floor of 1000 divided
    by [period_ms].  When [period_ms] does not divide 1000 the period of
    that frequency, 1000 / f milliseconds, is not [period_ms]; when it
    does, it is.  For every [period_ms] above 1000 the frequency is 0.
    A run that returns has made, after the calls recorded before it,
    exactly these calls on the pin and the timer, in this order: the pin
    set up, the timer initialised with that frequency, the pin raised, the
    timer stopped, the pin lowered. *)
Theorem C10_frequency_floor :
  (forall p f,
      frequency p = Some f ->
      ((0 < p)%Z -> (f * p <= 1000 < (f + 1) * p)%Z)
      /\ ((p < 0)%Z -> ((f + 1) * p < 1000 <= f * p)%Z))
  /\ (forall p f,
        frequency p = Some f ->
        ~ (p | 1000)%Z ->
        (f * p)%Z <> 1000%Z
        /\ (f <> 0%Z -> ~ (tick_period_ms f == inject_Z p)%Q))
  /\ (forall p f,
        frequency p = Some f -> (p | 1000)%Z -> (f * p)%Z = 1000%Z)
  /\ (forall p, (1000 < p)%Z -> frequency p = Some 0%Z)
  /\ (forall hw p st f,
        frequency p = Some f ->
        timer_accepts hw f = false ->
        step_response hw p st = (Raised ValueError, set_pc0_out st))
  /\ (forall hw p st st',
        step_response hw p st = (Returned tt, st') ->
        exists f,
          frequency p = Some f
          /\ timer_accepts hw f = true
          /\ board_calls st'
             = board_calls st
               ++ [PinInit; TimerInit f; PinValue true; TimerDeinit;
                   PinValue false]).
Proof.
  assert (Hfreq : forall p f, frequency p = Some f ->
                              p <> 0%Z /\ f = (1000 / p)%Z).
  { unfold frequency; intros p f H.
    destruct (Z.eqb_spec p 0); [discriminate|].
    inversion H; auto. }
  split; [|split; [|split; [|split; [|split]]]].
  - intros p f Hf. destruct (Hfreq p f Hf) as [Hp ->]. split; intros Hs.
    + pose proof (Z.div_mod 1000 p Hp).
      pose proof (Z.mod_pos_bound 1000 p Hs). nia.
    + pose proof (Z.div_mod 1000 p Hp).
      pose proof (Z.mod_neg_bound 1000 p Hs). nia.
  - intros p f Hf Hnd.
    assert (Hne : (f * p)%Z <> 1000%Z).
    { intros Heq; apply Hnd; exists f; now rewrite Heq. }
    split; [exact Hne|].
    intros Hf0 Heq; apply Hne.
    unfold tick_period_ms in Heq.
    assert (Hz : ~ (inject_Z f == 0)%Q).
    { intros H0. apply Hf0. unfold Qeq in H0; simpl in H0. lia. }
    assert (Hm : (inject_Z 1000 == inject_Z p * inject_Z f)%Q).
    { rewrite <- Heq. field. exact Hz. }
    rewrite <- inject_Z_mult in Hm.
    unfold Qeq in Hm; simpl in Hm. lia.
  - intros p f Hf [k Hk]. destruct (Hfreq p f Hf) as [Hp ->].
    rewrite Hk, Z.div_mul by assumption. reflexivity.
  - intros p Hp; unfold frequency.
    destruct (Z.eqb_spec p 0); [lia|].
    now rewrite Z.div_small by lia.
  - intros hw p st f Hf Hacc; unfold step_response; now rewrite Hf, Hacc.
  - intros hw p st st' Hrun.
    destruct (step_response_returned hw p st st' Hrun) as [Hp Hacc].
    exists (1000 / p)%Z. split; [|split; [exact Hacc|]].
    + unfold frequency. apply Z.eqb_neq in Hp. now rewrite Hp.
    + rewrite step_response_run in Hrun by assumption.
      inversion Hrun; reflexivity.
Qed.

Lemma C10_frequency_floor_witness :
  ((333 * 3 <= 1000 < (333 + 1) * 3)%Z
   /\ (333 * 3)%Z <> 1000%Z
   /\ ~ (tick_period_ms 333 == inject_Z 3)%Q)
  /\ (100 * 10)%Z = 1000%Z
  /\ frequency 1500 = Some 0%Z
  /\ step_response bench 1500 boot = (Raised ValueError, set_pc0_out boot)
  /\ (exists f,
        frequency 3 = Some f
        /\ timer_accepts bench f = true
        /\ board_calls (snd (step_response bench 3 boot))
           = board_calls boot
             ++ [PinInit; TimerInit f; PinValue true; TimerDeinit;
                 PinValue false]).
Proof.
  split; [split; [|split]|split; [|split; [|split]]].
  - apply (proj1 C10_frequency_floor 3%Z 333%Z); reflexivity.
  - apply (proj1 (proj2 C10_frequency_floor) 3%Z 333%Z); [reflexivity|].
    intros [k Hk]; lia.
  - apply (proj1 (proj2 C10_frequency_floor) 3%Z 333%Z);
      [reflexivity | | discriminate].
    intros [k Hk]; lia.
  - apply (proj1 (proj2 (proj2 C10_frequency_floor)) 10%Z 100%Z);
      [reflexivity|].
    exists 100%Z; reflexivity.
  - apply (proj1 (proj2 (proj2 (proj2 C10_frequency_floor)))). lia.
  - apply (proj1 (proj2 (proj2 (proj2 (proj2 C10_frequency_floor)))) bench
             1500%Z boot 0%Z); reflexivity.
  - apply (proj2 (proj2 (proj2 (proj2 (proj2 C10_frequency_floor)))) bench
             3%Z boot (snd (step_response bench 3 boot))).
    vm_compute; reflexivity.
Defined.

End BoardClaims.

(** * The two programs together *)

(** What the host reads back from a run of the board with the default
    period: two hundred points, the times 0, 10, 20 and so on. *)
Example host_reads_bench_run :
  exists xs ys,
    result (banner ++ map crlf (stdout (snd (step_response bench 10 boot))))
    = Returned (xs, ys)
    /\ List.length xs = 200
    /\ List.length ys = 200
    /\ firstn 3 xs = map decimal [0; 10; 20]%Q
    /\ firstn 3 ys = map decimal [0; 16 # 1000; 32 # 1000]%Q.
Proof.
  eexists _, _; split; [vm_compute; reflexivity|].
  repeat split.
Qed.

(** * Further properties of the board program *)

Import Link.

Section BoardFurther.

Lemma print_vals_spec hw st :
  print_vals hw st =
  mkDevice (mkQueue (capacity (int_queue st)) [] (overflow (int_queue st)))
    (conversions st) (pc0_out st) (pc0 st) (tim0 st)
    (stdout st ++ data_lines hw TIMER_INTERVAL (items (int_queue st)))
    (board_calls st).
Proof.
  unfold print_vals. change 0%Z with (Z.of_nat 0 * TIMER_INTERVAL)%Z.
  now rewrite (print_vals_from_spec hw (items (int_queue st)) 0 st).
Qed.

(** The three ways a call of [step_response] can end. *)
Lemma step_response_cases hw period_ms st :
  (period_ms = 0%Z
   /\ step_response hw period_ms st = (Raised ZeroDivisionError, st))
  \/ (period_ms <> 0%Z
      /\ timer_accepts hw (1000 / period_ms) = false
      /\ step_response hw period_ms st = (Raised ValueError, set_pc0_out st))
  \/ (period_ms <> 0%Z
      /\ timer_accepts hw (1000 / period_ms) = true
      /\ step_response hw period_ms st
         = (Returned tt,
            mkDevice
              (mkQueue (capacity (int_queue st)) []
                 (overflow (int_queue st) + late_ticks hw))
              (conversions st
               + (capacity (int_queue st) - num_in (int_queue st))
               + late_ticks hw)
              true false None
              (stdout st ++ data_lines hw TIMER_INTERVAL (drained hw st)
               ++ ["End"%string])
              (board_calls st
               ++ [PinInit; TimerInit (1000 / period_ms); PinValue true;
                   TimerDeinit; PinValue false]))).
Proof.
  destruct (Z.eq_dec period_ms 0) as [Hz|Hz].
  - left; subst; split; reflexivity.
  - destruct (timer_accepts hw (1000 / period_ms)) eqn:Hacc.
    + right; right; repeat split; auto. now apply step_response_run.
    + right; left; repeat split; auto.
      unfold step_response, frequency.
      apply Z.eqb_neq in Hz; now rewrite Hz, Hacc.
Qed.

Lemma positive_frequency p :
  p <> 0%Z -> ((0 < 1000 / p)%Z <-> (1 <= p <= 1000)%Z).
Proof.
  intros Hp. pose proof (Z.div_mod 1000 p Hp) as Hdm.
  destruct (Z.lt_ge_cases 0 p) as [Hs|Hs].
  - pose proof (Z.mod_pos_bound 1000 p Hs) as Hm. split; intros Hq; nia.
  - assert (Hn : (p < 0)%Z) by lia.
    pose proof (Z.mod_neg_bound 1000 p Hn) as Hm. split; intros Hq; nia.
Qed.

(** X1.  For the readings of the 12-bit converter, 0 to 4095,
    [adc_voltage] lies between 0 and 3.3, the upper bound excluded, and a
    larger reading gives a larger voltage. *)
Theorem X1_adc_voltage_range :
  forall a b,
    (0 <= a <= 4095)%Z ->
    (0 <= b <= 4095)%Z ->
    (0 <= adc_voltage a)%Q
    /\ (adc_voltage a < MAX_VOLTAGE)%Q
    /\ ((a < b)%Z -> (adc_voltage a < adc_voltage b)%Q).
Proof.
  intros a b Ha Hb. unfold adc_voltage, Qle, Qlt; simpl.
  repeat split; lia.
Qed.

Lemma X1_adc_voltage_range_witness :
  (0 <= adc_voltage 100)%Q
  /\ (adc_voltage 100 < MAX_VOLTAGE)%Q
  /\ (adc_voltage 100 < adc_voltage 101)%Q.
Proof.
  destruct (X1_adc_voltage_range 100%Z 101%Z) as (Hlow & Hhigh & Hmono).
  - split; discriminate.
  - split; discriminate.
  - split; [exact Hlow | split; [exact Hhigh | apply Hmono; reflexivity]].
Defined.

(** X2.  On a board whose timer refuses exactly the frequencies that are
    not positive, [step_response] runs to completion exactly for the
    periods from 1 to 1000 milliseconds; a zero period raises
    [ZeroDivisionError], and a negative period or one above 1000 raises
    the timer's [ValueError] with nothing changed but the pin mode. *)
Theorem X2_periods_that_run :
  forall hw period_ms st,
    (forall f, timer_accepts hw f = (0 <? f)%Z) ->
    ((exists st', step_response hw period_ms st = (Returned tt, st'))
     <-> (1 <= period_ms <= 1000)%Z)
    /\ ((period_ms < 0)%Z \/ (1000 < period_ms)%Z ->
        step_response hw period_ms st = (Raised ValueError, set_pc0_out st)).
Proof.
  intros hw period_ms st Htim.
  destruct (step_response_cases hw period_ms st)
    as [(Hz & Hr) | [(Hz & Hacc & Hr) | (Hz & Hacc & Hr)]];
    rewrite Hr; try rewrite Htim in Hacc.
  - subst; split; [|lia].
    split; [intros (st' & H); discriminate | lia].
  - apply Z.ltb_ge in Hacc.
    pose proof (positive_frequency period_ms Hz) as Hpf.
    split; [|reflexivity].
    split; [intros (st' & H); discriminate | intros H; apply Hpf in H; lia].
  - apply Z.ltb_lt in Hacc.
    apply (positive_frequency period_ms Hz) in Hacc.
    split; [|lia].
    split; [intros _; exact Hacc | intros _; eexists; reflexivity].
Qed.

Lemma X2_periods_that_run_witness :
  ((exists st', step_response bench 250 boot = (Returned tt, st'))
   <-> (1 <= 250 <= 1000)%Z)
  /\ ((1001 < 0)%Z \/ (1000 < 1001)%Z ->
      step_response bench 1001 boot = (Raised ValueError, set_pc0_out boot)).
Proof.
  split.
  - apply (X2_periods_that_run bench 250%Z boot). intros f; reflexivity.
  - apply (X2_periods_that_run bench 1001%Z boot). intros f; reflexivity.
Defined.

(** X3.  For a period from 1 to 1000 milliseconds the frequency given to
    the timer is between 1 and 1000 Hz, and the period of that frequency
    is at least the period asked for and less than twice it. *)
Theorem X3_tick_period_bounds :
  forall p f,
    (1 <= p <= 1000)%Z ->
    frequency p = Some f ->
    (1 <= f <= 1000)%Z
    /\ (p * f <= 1000 < 2 * p * f)%Z
    /\ (inject_Z p <= tick_period_ms f)%Q
    /\ (tick_period_ms f < inject_Z (2 * p))%Q.
Proof.
  intros p f Hp Hf. unfold frequency in Hf.
  destruct (Z.eqb_spec p 0); [lia|]. inversion Hf; subst f; clear Hf.
  pose proof (Z.div_mod 1000 p n) as Hdm.
  pose proof (Z.mod_pos_bound 1000 p ltac:(lia)) as Hm.
  assert (Hf1 : (1 <= 1000 / p <= 1000)%Z) by nia.
  assert (Hb : (p * (1000 / p) <= 1000 < 2 * p * (1000 / p))%Z) by nia.
  split; [exact Hf1 | split; [exact Hb|]].
  unfold tick_period_ms.
  destruct (1000 / p)%Z as [|q|q] eqn:Hq; try lia.
  unfold Qle, Qlt, Qdiv, Qinv, Qmult, inject_Z.
  cbn [Qnum Qden]. split; nia.
Qed.

Lemma X3_tick_period_bounds_witness :
  (1 <= 1 <= 1000)%Z
  /\ (600 * 1 <= 1000 < 2 * 600 * 1)%Z
  /\ (inject_Z 600 <= tick_period_ms 1)%Q
  /\ (tick_period_ms 1 < inject_Z (2 * 600))%Q.
Proof.
  apply (X3_tick_period_bounds 600%Z 1%Z); [lia | reflexivity].
Defined.

(** X4.  The state a call of [step_response] leaves.  When it raises, no
    sample has been taken, nothing has been printed, the pin has not been
    driven and the timer has not been started; at most the pin has been
    set up.  When it returns, the pin is an output driven low, the timer
    is stopped, the queue is empty with its capacity unchanged, the
    conversions used are those that filled the queue plus the late ticks,
    and the pin was raised after the timer was started and lowered after
    it was stopped. *)
Theorem X4_state_after_call :
  forall hw period_ms st r st',
    step_response hw period_ms st = (r, st') ->
    (forall e,
        r = Raised e ->
        stdout st' = stdout st /\ int_queue st' = int_queue st
        /\ conversions st' = conversions st /\ pc0 st' = pc0 st
        /\ tim0 st' = tim0 st
        /\ (board_calls st' = board_calls st
            \/ board_calls st' = board_calls st ++ [PinInit]))
    /\ (r = Returned tt ->
        pc0_out st' = true /\ pc0 st' = false /\ tim0 st' = None
        /\ items (int_queue st') = []
        /\ capacity (int_queue st') = capacity (int_queue st)
        /\ conversions st'
           = conversions st
             + (capacity (int_queue st) - num_in (int_queue st))
             + late_ticks hw
        /\ board_calls st'
           = board_calls st
             ++ [PinInit; TimerInit (1000 / period_ms); PinValue true;
                 TimerDeinit; PinValue false]).
Proof.
  intros hw period_ms st r st' Hcall.
  destruct (step_response_cases hw period_ms st)
    as [(_ & Hr) | [(_ & _ & Hr) | (_ & _ & Hr)]];
    rewrite Hr in Hcall; inversion Hcall; subst r st'; clear Hcall.
  - split; [intros; auto 7 | discriminate].
  - split; [intros; simpl; auto 7 | discriminate].
  - split; [discriminate|].
    intros _; simpl; auto 8.
Qed.

Lemma X4_state_after_call_witness :
  (forall e,
      Returned tt = Raised e ->
      stdout (snd (step_response bench 10 boot)) = stdout boot
      /\ int_queue (snd (step_response bench 10 boot)) = int_queue boot
      /\ conversions (snd (step_response bench 10 boot)) = conversions boot
      /\ pc0 (snd (step_response bench 10 boot)) = pc0 boot
      /\ tim0 (snd (step_response bench 10 boot)) = tim0 boot
      /\ (board_calls (snd (step_response bench 10 boot)) = board_calls boot
          \/ board_calls (snd (step_response bench 10 boot))
             = board_calls boot ++ [PinInit]))
  /\ (Returned tt = Returned tt ->
      pc0_out (snd (step_response bench 10 boot)) = true
      /\ pc0 (snd (step_response bench 10 boot)) = false
      /\ tim0 (snd (step_response bench 10 boot)) = None
      /\ items (int_queue (snd (step_response bench 10 boot))) = []
      /\ capacity (int_queue (snd (step_response bench 10 boot)))
         = capacity (int_queue boot)
      /\ conversions (snd (step_response bench 10 boot))
         = conversions boot
           + (capacity (int_queue boot) - num_in (int_queue boot))
           + late_ticks bench
      /\ board_calls (snd (step_response bench 10 boot))
         = board_calls boot
           ++ [PinInit; TimerInit (1000 / 10); PinValue true; TimerDeinit;
               PinValue false]).
Proof.
  apply (X4_state_after_call bench 10%Z boot (Returned tt)
           (snd (step_response bench 10 boot))).
  vm_compute; reflexivity.
Defined.

End BoardFurther.

Section BoardRuns.

Lemma timer_int_queue hw st :
  capacity (int_queue (timer_int hw st)) = capacity (int_queue st)
  /\ (num_in (int_queue st) <= capacity (int_queue st) ->
      num_in (int_queue (timer_int hw st)) <= capacity (int_queue st)).
Proof.
  unfold timer_int, put; simpl.
  destruct (full (int_queue st)) eqn:Hf; simpl; split; auto.
  intros _. unfold full in Hf; apply Nat.leb_gt in Hf.
  unfold num_in in *; simpl; rewrite length_app; simpl; lia.
Qed.

(** X5.  In every state the board program can reach from the loaded
    module, by timer ticks, calls of [print_vals] and calls of
    [step_response] whatever their end, the queue has the capacity
    [QUEUE_SIZE] and holds at most that many values.  So every call of
    [step_response] that returns, from any such state, has printed exactly
    200 data lines followed by End. *)
Theorem X5_queue_invariant :
  forall hw st,
    reachable hw st ->
    capacity (int_queue st) = QUEUE_SIZE
    /\ num_in (int_queue st) <= QUEUE_SIZE
    /\ (forall period_ms st',
          step_response hw period_ms st = (Returned tt, st') ->
          exists lines,
            stdout st' = stdout st ++ lines ++ ["End"%string]
            /\ List.length lines = 200
            /\ ~ In "End"%string lines).
Proof.
  intros hw st Hreach.
  assert (Hinv : capacity (int_queue st) = QUEUE_SIZE
                 /\ num_in (int_queue st) <= QUEUE_SIZE).
  { induction Hreach as [|st Hr [Hc Hn]|st Hr [Hc Hn]|st p Hr [Hc Hn]].
    - split; [reflexivity | apply Nat.leb_le; reflexivity].
    - destruct (timer_int_queue hw st) as [Hc' Hn'].
      rewrite Hc'. split; [exact Hc|]. rewrite <- Hc. apply Hn'. lia.
    - rewrite print_vals_spec; simpl. split; [exact Hc | unfold num_in; simpl; lia].
    - destruct (step_response_cases hw p st)
        as [(_ & H) | [(_ & _ & H) | (_ & _ & H)]]; rewrite H; simpl.
      + auto.
      + auto.
      + split; [exact Hc | unfold num_in; simpl; lia]. }
  destruct Hinv as [Hc Hn]. split; [exact Hc | split; [exact Hn|]].
  intros period_ms st' Hrun.
  destruct (step_response_returned hw period_ms st st' Hrun) as [Hp Hacc].
  rewrite step_response_run in Hrun by assumption.
  inversion Hrun; subst st'; simpl.
  exists (data_lines hw TIMER_INTERVAL (drained hw st)).
  split; [reflexivity|]. split; [|apply data_lines_no_End].
  rewrite data_lines_length, drained_length; [exact Hc | lia].
Qed.

Lemma X5_queue_invariant_witness :
  capacity (int_queue (timer_int bench (snd (step_response bench 0 boot))))
  = QUEUE_SIZE
  /\ num_in (int_queue (timer_int bench (snd (step_response bench 0 boot))))
     <= QUEUE_SIZE
  /\ (forall period_ms st',
        step_response bench period_ms
          (timer_int bench (snd (step_response bench 0 boot)))
        = (Returned tt, st') ->
        exists lines,
          stdout st'
          = stdout (timer_int bench (snd (step_response bench 0 boot)))
            ++ lines ++ ["End"%string]
          /\ List.length lines = 200
          /\ ~ In "End"%string lines).
Proof.
  apply (X5_queue_invariant bench).
  apply reach_tick, reach_run, reach_boot.
Defined.

(** X6.  [print_vals] prints one line for each value in the queue, oldest
    first, line [i] stamped [10 * i], and leaves the queue empty, whatever
    the queue held; nothing else changes.  On an empty queue it prints
    nothing, so a second call right after the first prints nothing more. *)
Theorem X6_print_vals_drains :
  forall hw st,
    stdout (print_vals hw st)
    = stdout st ++ data_lines hw TIMER_INTERVAL (items (int_queue st))
    /\ List.length (stdout (print_vals hw st))
       = List.length (stdout st) + num_in (int_queue st)
    /\ (forall i val,
          nth_error (items (int_queue st)) i = Some val ->
          nth_error (stdout (print_vals hw st)) (List.length (stdout st) + i)
          = Some (csv_line hw (10 * Z.of_nat i) val))
    /\ items (int_queue (print_vals hw st)) = []
    /\ capacity (int_queue (print_vals hw st)) = capacity (int_queue st)
    /\ conversions (print_vals hw st) = conversions st
    /\ pc0 (print_vals hw st) = pc0 st
    /\ tim0 (print_vals hw st) = tim0 st
    /\ (items (int_queue st) = [] -> print_vals hw st = st)
    /\ print_vals hw (print_vals hw st) = print_vals hw st.
Proof.
  intros hw st. rewrite !print_vals_spec; simpl.
  split; [reflexivity|].
  split; [now rewrite length_app, data_lines_length|].
  split.
  { intros i val Hi.
    rewrite nth_error_app2 by lia.
    replace (List.length (stdout st) + i - List.length (stdout st)) with i
      by lia.
    rewrite (data_lines_nth hw TIMER_INTERVAL _ i val Hi).
    unfold TIMER_INTERVAL. now rewrite Z.mul_comm. }
  repeat (split; [reflexivity|]).
  split.
  - intros He. destruct st as [[cap its ovf] conv po pc tm out log];
      simpl in *; subst its. unfold data_lines; simpl. now rewrite app_nil_r.
  - unfold data_lines at 2; simpl. now rewrite app_nil_r.
Qed.

Lemma X6_print_vals_drains_witness :
  nth_error
    (stdout (print_vals bench
               (mkDevice (mkQueue 5 [7; 8; 9]%Z 0) 3 true false None
                  ["hello"%string] [])))
    (List.length ["hello"%string] + 2)
  = Some (csv_line bench (10 * Z.of_nat 2) 9)
  /\ print_vals bench boot = boot.
Proof.
  split.
  - apply (proj1 (proj2 (proj2 (X6_print_vals_drains bench
             (mkDevice (mkQueue 5 [7; 8; 9]%Z 0) 3 true false None
                ["hello"%string] []))))).
    reflexivity.
  - destruct (X6_print_vals_drains bench boot)
      as (_ & _ & _ & _ & _ & _ & _ & _ & Hempty & _).
    apply Hempty. reflexivity.
Defined.

(** X7.  Two calls of [step_response] in a row that both return: the
    second prints its data lines with the stamps starting again from 0,
    and its samples are the [capacity] conversions that follow those the
    first call used, late ticks included, since the first call left the
    queue empty. *)
Theorem X7_second_run :
  forall hw p1 p2 st st1 st2,
    step_response hw p1 st = (Returned tt, st1) ->
    step_response hw p2 st1 = (Returned tt, st2) ->
    let cap := capacity (int_queue st) in
    let used := conversions st + (cap - num_in (int_queue st))
                + late_ticks hw in
    drained hw st1 = map (adc0_read hw) (seq used cap)
    /\ stdout st2
       = stdout st
         ++ data_lines hw TIMER_INTERVAL (drained hw st) ++ ["End"%string]
         ++ data_lines hw TIMER_INTERVAL (map (adc0_read hw) (seq used cap))
         ++ ["End"%string]
    /\ conversions st2 = used + cap + late_ticks hw.
Proof.
  intros hw p1 p2 st st1 st2 H1 H2 cap used.
  destruct (step_response_returned hw p1 st st1 H1) as [Hp1 Ha1].
  destruct (step_response_returned hw p2 st1 st2 H2) as [Hp2 Ha2].
  pose proof (step_response_run hw p1 st Hp1 Ha1) as E1.
  rewrite H1 in E1; injection E1 as E1.
  pose proof (step_response_run hw p2 st1 Hp2 Ha2) as E2.
  rewrite H2 in E2; injection E2 as E2.
  assert (Hd : drained hw st1 = map (adc0_read hw) (seq used cap)).
  { rewrite E1; unfold drained, num_in; simpl. now rewrite Nat.sub_0_r. }
  split; [exact Hd|].
  rewrite E2; simpl. rewrite Hd. rewrite E1; simpl. split.
  - now rewrite <- !app_assoc.
  - unfold used, cap, num_in; simpl. lia.
Qed.

Lemma X7_second_run_witness :
  let st1 := snd (step_response bench 10 boot) in
  let st2 := snd (step_response bench 20 st1) in
  drained bench st1 = map (adc0_read bench) (seq 201 200)
  /\ nth_error (stdout st2) 201 = Some "0,3.238"%string.
Proof.
  intros st1 st2.
  destruct (X7_second_run bench 10%Z 20%Z boot st1 st2) as (Hd & Hout & _).
  - vm_compute; reflexivity.
  - vm_compute; reflexivity.
  - split; [exact Hd|]. rewrite Hout. vm_compute; reflexivity.
Defined.

End BoardRuns.

(** * Further properties of the host program *)

Section HostFurther.

(** Lines that decode and are not the terminating line are read one by one,
    each adding its pair when it is well formed. *)
Lemma read_loop_prefix pre :
  forall data_str xdata ydata,
    Forall (fun l => decodable l /\ is_sentinel l = false) pre ->
    data_str <> term_str ->
    exists data_str',
      data_str' <> term_str
      /\ forall rest log,
          read_loop (pre ++ rest) log data_str xdata ydata
          = read_loop rest (log ++ repeat ReadLine (List.length pre)) data_str'
              (xdata ++ map fst (pairs pre)) (ydata ++ map snd (pairs pre)).
Proof.
  induction pre as [|l pre IH]; intros data_str xdata ydata Hpre Hne.
  - exists data_str; split; [exact Hne|]. intros rest log; simpl.
    now rewrite !app_nil_r.
  - inversion Hpre as [|? ? [Hdec Hns] Hrest]; subst.
    destruct (decoded l) as [s|] eqn:Hd; [|now elim Hdec].
    assert (Hs : s <> term_str).
    { intros ->. unfold is_sentinel in Hns; rewrite Hd in Hns.
      now rewrite String.eqb_refl in Hns. }
    pose proof (store_line_fields l s xdata ydata Hd) as Hst.
    destruct (fields l) as [[x y]|] eqn:Hf.
    + destruct (IH s (xdata ++ [x]) (ydata ++ [y]) Hrest Hs)
        as (ds' & Hds' & Hloop).
      exists ds'; split; [exact Hds'|]. intros rest log.
      simpl app. rewrite read_loop_cons by assumption.
      rewrite Hd, Hst, Hloop. simpl pairs; rewrite Hf; simpl.
      now rewrite <- !app_assoc.
    + destruct (IH s xdata ydata Hrest Hs) as (ds' & Hds' & Hloop).
      exists ds'; split; [exact Hds'|]. intros rest log.
      simpl app. rewrite read_loop_cons by assumption.
      rewrite Hd, Hst, Hloop. simpl pairs; rewrite Hf; simpl.
      now rewrite <- !app_assoc.
Qed.

Lemma forallb_false {A} (f : A -> bool) (l : list A) :
  forallb f l = false -> exists x, In x l /\ f x = false.
Proof.
  induction l as [|a l IH]; simpl; [discriminate|].
  destruct (f a) eqn:Hfa; simpl.
  - intros H; destruct (IH H) as (x & Hin & Hx); eauto.
  - intros _; eauto.
Qed.

(** X8.  When the lines after the banner decode up to a first terminating
    line, [get_data] returns the pairs of the well-formed lines before it,
    has read exactly the six banner lines, those lines and the
    terminating line, then closed the port; whatever follows the
    terminating line stays unread and has no influence. *)
Theorem X8_stops_at_first_sentinel :
  forall b pre line post,
    List.length b = 6 ->
    Forall (fun l => decodable l /\ is_sentinel l = false) pre ->
    is_sentinel line = true ->
    session (b ++ pre ++ line :: post)
    = (Returned (map fst (pairs pre), map snd (pairs pre)),
       mkSerial post
         (handshake [x33; x0a] ++ repeat ReadLine (S (List.length pre))
          ++ [Close])).
Proof.
  intros b pre line post Hb Hpre Hline.
  rewrite session_banner by assumption.
  destruct (read_loop_prefix pre EmptyString [] [] Hpre empty_not_term)
    as (ds & Hds & Hloop).
  rewrite Hloop, read_loop_cons by assumption.
  apply is_sentinel_true in Hline.
  rewrite Hline, store_line_term, read_loop_term; simpl.
  rewrite <- !app_assoc. do 3 f_equal.
  change [ReadLine] with (repeat ReadLine 1).
  rewrite app_assoc, <- repeat_app, Nat.add_1_r. reflexivity.
Qed.

Lemma X8_stops_at_first_sentinel_witness :
  session (banner ++ map crlf ["1,2.5"; "oops"]%string
             ++ crlf "End" :: map crlf ["3,4"; "End"]%string)
  = (Returned (map fst (pairs (map crlf ["1,2.5"; "oops"]%string)),
               map snd (pairs (map crlf ["1,2.5"; "oops"]%string))),
     mkSerial (map crlf ["3,4"; "End"]%string)
       (handshake [x33; x0a]
        ++ repeat ReadLine (S (List.length (map crlf ["1,2.5"; "oops"]%string)))
        ++ [Close])).
Proof.
  apply (X8_stops_at_first_sentinel banner
           (map crlf ["1,2.5"; "oops"]%string) (crlf "End")
           (map crlf ["3,4"; "End"]%string)).
  - reflexivity.
  - repeat constructor; discriminate.
  - reflexivity.
Defined.

(** X9.  A received line fails to decode exactly when one of its bytes,
    the last two aside, is 128 or more.  When such a line comes before any
    terminating line, [get_data] raises [UnicodeDecodeError] on reading
    it: the pairs read so far are not returned, the port is closed, and
    the lines after it stay unread. *)
Theorem X9_non_ascii_line_aborts :
  (forall line,
      decoded line = None
      <-> exists x, In x (slice_to_minus2 line) /\ (128 <= Byte.to_N x)%N)
  /\ (forall b pre bad post,
        List.length b = 6 ->
        Forall (fun l => decodable l /\ is_sentinel l = false) pre ->
        decoded bad = None ->
        session (b ++ pre ++ bad :: post)
        = (Raised UnicodeDecodeError,
           mkSerial post
             (handshake [x33; x0a] ++ repeat ReadLine (S (List.length pre))
              ++ [Close]))).
Proof.
  split.
  - intros line; unfold decoded, decode_ascii.
    destruct (forallb _ (slice_to_minus2 line)) eqn:Hall; split.
    + discriminate.
    + intros (x & Hin & Hx).
      rewrite forallb_forall in Hall. apply Hall in Hin.
      apply N.ltb_lt in Hin. lia.
    + intros _. apply forallb_false in Hall.
      destruct Hall as (x & Hin & Hx). exists x; split; [exact Hin|].
      apply N.ltb_ge in Hx. exact Hx.
    + reflexivity.
  - intros b pre bad post Hb Hpre Hbad.
    rewrite session_banner by assumption.
    destruct (read_loop_prefix pre EmptyString [] [] Hpre empty_not_term)
      as (ds & Hds & Hloop).
    rewrite Hloop, read_loop_cons by assumption.
    rewrite Hbad; simpl.
    rewrite <- !app_assoc. do 3 f_equal.
    change [ReadLine] with (repeat ReadLine 1).
    rewrite app_assoc, <- repeat_app, Nat.add_1_r. reflexivity.
Qed.

Lemma X9_non_ascii_line_aborts_witness :
  decoded [x31; xe9; x0d; x0a] = None
  /\ session (banner ++ map crlf ["1,2.5"]%string
               ++ [x31; xe9; x0d; x0a] :: map crlf ["End"]%string)
     = (Raised UnicodeDecodeError,
        mkSerial (map crlf ["End"]%string)
          (handshake [x33; x0a]
           ++ repeat ReadLine (S (List.length (map crlf ["1,2.5"]%string)))
           ++ [Close])).
Proof.
  split.
  - apply (proj1 X9_non_ascii_line_aborts [x31; xe9; x0d; x0a]).
    exists xe9; split; [right; left; reflexivity | discriminate].
  - apply (proj2 X9_non_ascii_line_aborts banner
             (map crlf ["1,2.5"]%string) [x31; xe9; x0d; x0a]
             (map crlf ["End"]%string)).
    + reflexivity.
    + repeat constructor; discriminate.
    + reflexivity.
Defined.

Lemma read_loop_extend lines :
  forall more log log' data_str xdata ydata,
    fst (read_loop lines log data_str xdata ydata) <> Blocked ->
    fst (read_loop (lines ++ more) log' data_str xdata ydata)
    = fst (read_loop lines log data_str xdata ydata).
Proof.
  induction lines as [|l lines IH];
    intros more log log' data_str xdata ydata Hnb.
  - destruct (String.eqb_spec data_str term_str) as [->|Hne].
    + now rewrite !read_loop_term.
    + rewrite read_loop_nil in Hnb by assumption. now elim Hnb.
  - destruct (String.eqb_spec data_str term_str) as [->|Hne].
    + now rewrite !read_loop_term.
    + simpl app. rewrite !read_loop_cons in * by assumption.
      destruct (decoded l) as [s|]; [|reflexivity].
      destruct (store_line s xdata ydata) as [x' y'].
      now apply IH.
Qed.

(** X11.  Once [get_data] has returned or raised on the lines received,
    lines received later change nothing: only a stream that has left the
    call blocked can still change its outcome. *)
Theorem X11_outcome_is_final :
  forall stream more,
    result stream <> Blocked ->
    result (stream ++ more) = result stream.
Proof.
  intros stream more Hnb.
  destruct (Nat.lt_ge_cases (List.length stream) 6) as [Hs|Hs].
  { rewrite result_short in Hnb by assumption. now elim Hnb. }
  rewrite result_long in Hnb by assumption.
  rewrite (result_long stream) by assumption.
  rewrite result_long by (rewrite length_app; lia).
  rewrite skipn_app.
  replace (6 - List.length stream) with 0 by lia. simpl skipn at 2.
  now apply read_loop_extend.
Qed.

Lemma X11_outcome_is_final_witness :
  result ((banner ++ map crlf ["1,2.5"; "End"]%string)
            ++ map crlf ["7,8"; "End"]%string)
  = result (banner ++ map crlf ["1,2.5"; "End"]%string).
Proof.
  apply (X11_outcome_is_final (banner ++ map crlf ["1,2.5"; "End"]%string)
           (map crlf ["7,8"; "End"]%string)).
  discriminate.
Defined.

End HostFurther.

(** * Texts: what the board prints and what the host reads *)

Section Texts.

Lemma split_comma_nonempty s : split_comma s <> [].
Proof.
  destruct s as [|c r]; simpl; [discriminate|].
  destruct (c =? ",")%char; [discriminate|].
  destruct (split_comma r); discriminate.
Qed.

Lemma split_comma_free s : comma_free s = true -> split_comma s = [s].
Proof.
  unfold comma_free; induction s as [|c r IH]; simpl; [reflexivity|].
  intros H; apply andb_prop in H; destruct H as [Hc Hr].
  apply negb_true_iff in Hc; rewrite Hc, (IH Hr). reflexivity.
Qed.

Lemma split_comma_app a r :
  comma_free a = true ->
  split_comma (a ++ String "," r) = a :: split_comma r.
Proof.
  unfold comma_free; induction a as [|c a IH]; simpl; [reflexivity|].
  intros H; apply andb_prop in H; destruct H as [Hc Ha].
  apply negb_true_iff in Hc; rewrite Hc, (IH Ha). reflexivity.
Qed.

(** X10.  Of a line, only the first two columns count: further columns,
    whatever they hold, are ignored, and the line adds its pair exactly
    when both of its first two columns read as numbers. *)
Theorem X10_extra_columns_ignored :
  forall f0 f1 more xdata ydata,
    comma_free f0 = true ->
    comma_free f1 = true ->
    store_line (f0 ++ "," ++ f1 ++ "," ++ more) xdata ydata
    = store_line (f0 ++ "," ++ f1) xdata ydata
    /\ store_line (f0 ++ "," ++ f1) xdata ydata
       = match float (strip f0), float (strip f1) with
         | Some x, Some y => (xdata ++ [x], ydata ++ [y])
         | _, _ => (xdata, ydata)
         end.
Proof.
  intros f0 f1 more xdata ydata H0 H1.
  assert (Hlong : split_comma (f0 ++ "," ++ f1 ++ "," ++ more)
                  = f0 :: f1 :: split_comma more).
  { change ("," ++ f1 ++ "," ++ more)%string
      with (String "," (f1 ++ String "," more)).
    now rewrite !split_comma_app. }
  assert (Hshort : split_comma (f0 ++ "," ++ f1) = [f0; f1]).
  { change ("," ++ f1)%string with (String "," f1).
    now rewrite split_comma_app, split_comma_free. }
  unfold store_line; rewrite Hlong, Hshort; simpl.
  split; [reflexivity|].
  destruct (float (strip f0)); [|reflexivity].
  destruct (float (strip f1)); reflexivity.
Qed.

Lemma X10_extra_columns_ignored_witness :
  store_line ("10" ++ "," ++ "1.5" ++ "," ++ "7,,x") [] []
  = store_line ("10" ++ "," ++ "1.5") [] [].
Proof.
  apply (X10_extra_columns_ignored "10" "1.5" "7,,x" [] []); reflexivity.
Defined.

End Texts.

Section Numbers.

(** What holds of a digit. *)
Lemma digit_facts c :
  is_digit c = true ->
  (c =? "e")%char = false /\ (c =? "E")%char = false
  /\ (c =? ".")%char = false /\ (c =? "-")%char = false
  /\ (c =? "+")%char = false /\ (c =? ",")%char = false
  /\ (c =? "_")%char = false
  /\ isspace c = false /\ lower c = c
  /\ c <> "i"%char /\ c <> "n"%char
  /\ (Byte.to_N (byte_of_ascii c) <? 128)%N = true.
Proof.
  destruct c as [[] [] [] [] [] [] [] []]; vm_compute; intros H;
    try discriminate H; repeat split; discriminate.
Qed.

Lemma uint_chars_digits d : forallb is_digit (uint_chars d) = true.
Proof.
  unfold uint_chars; induction d; simpl; auto.
Qed.

Lemma uint_chars_nonnil d : d <> Decimal.Nil -> uint_chars d <> [].
Proof. unfold uint_chars; destruct d; simpl; congruence. Qed.

Lemma uint_chars_value_acc d :
  forall acc,
    fold_left digit_step (uint_chars d) (Z.pos acc)
    = Z.pos (Pos.of_uint_acc d acc).
Proof.
  unfold uint_chars; induction d; intros acc;
    cbn [NilEmpty.string_of_uint list_ascii_of_string fold_left
         Pos.of_uint_acc]; [reflexivity | ..];
    (match goal with
     | |- fold_left _ _ ?a = Z.pos (Pos.of_uint_acc _ ?b) =>
         replace a with (Z.pos b); [apply IHd|]
     end);
    unfold digit_step;
    (match goal with
     | |- context [digit_value ?c] =>
         let v := eval vm_compute in (digit_value c) in
         change (digit_value c) with v
     end);
    lia.
Qed.

Lemma uint_chars_value d :
  fold_left digit_step (uint_chars d) 0%Z = Z.of_N (Pos.of_uint d).
Proof.
  induction d;
    unfold uint_chars in *;
    cbn [NilEmpty.string_of_uint list_ascii_of_string fold_left Pos.of_uint];
    [reflexivity | exact IHd | ..];
    (match goal with
     | |- fold_left _ _ ?a = Z.of_N (N.pos (Pos.of_uint_acc _ ?b)) =>
         change a with (Z.pos b); apply uint_chars_value_acc
     end).
Qed.


Lemma digitpart_from_digits l :
  forall b,
    forallb is_digit l = true ->
    l <> [] \/ b = true ->
    digitpart_from b l = Some l.
Proof.
  induction l as [|c r IH]; intros b Hd Hb; simpl.
  - destruct Hb as [Hb | ->]; [now elim Hb | reflexivity].
  - simpl in Hd; apply andb_prop in Hd; destruct Hd as [Hc Hr].
    rewrite Hc, (IH true Hr) by (now right). reflexivity.
Qed.

Lemma break_at_none p l :
  forallb (fun c => negb (p c)) l = true -> break_at p l = (l, None).
Proof.
  induction l as [|c r IH]; simpl; [reflexivity|].
  intros H; apply andb_prop in H; destruct H as [Hc Hr].
  apply negb_true_iff in Hc; rewrite Hc, (IH Hr). reflexivity.
Qed.

Lemma forallb_weaken {A} (f g : A -> bool) l :
  (forall a, f a = true -> g a = true) ->
  forallb f l = true -> forallb g l = true.
Proof.
  intros Hfg; rewrite !forallb_forall; auto.
Qed.

Lemma forallb_rev_of {A} (f : A -> bool) l :
  forallb f l = true -> forallb f (rev l) = true.
Proof.
  rewrite !forallb_forall; intros H a Ha. apply H. now apply in_rev.
Qed.

Lemma digit_c_space c : is_digit c = true -> is_c_space c = false.
Proof.
  destruct c as [[] [] [] [] [] [] [] []]; vm_compute; intros H;
    try discriminate H; reflexivity.
Qed.

Lemma lstrip_with_head sp c r :
  sp c = false -> lstrip_with sp (c :: r) = c :: r.
Proof. intros H; simpl; now rewrite H. Qed.

(** What [float] skips leaves a text of digits, signed or not, as it is. *)
Lemma strip_with_digits sp l :
  (forall c, is_digit c = true -> sp c = false) ->
  forallb is_digit l = true ->
  strip_with sp l = l.
Proof.
  intros Hsp H.
  assert (Hl : forall m, forallb is_digit m = true -> lstrip_with sp m = m).
  { intros [|c r] Hm; [reflexivity|].
    simpl in Hm; apply andb_prop in Hm; destruct Hm as [Hc _].
    now apply lstrip_with_head, Hsp. }
  unfold strip_with. rewrite (Hl l H).
  rewrite (Hl (rev l)) by now apply forallb_rev_of.
  apply rev_involutive.
Qed.

Lemma strip_with_minus_digits sp l :
  (forall c, is_digit c = true -> sp c = false) ->
  sp "-"%char = false ->
  forallb is_digit l = true ->
  strip_with sp ("-"%char :: l) = "-"%char :: l.
Proof.
  intros Hsp Hminus H; unfold strip_with.
  rewrite lstrip_with_head by assumption.
  simpl rev.
  assert (Hr : lstrip_with sp (rev l ++ ["-"%char]) = rev l ++ ["-"%char]).
  { pose proof (forallb_rev_of is_digit l H) as Hrev.
    destruct (rev l) as [|c r]; [now apply lstrip_with_head|].
    simpl in Hrev; apply andb_prop in Hrev; destruct Hrev as [Hc _].
    simpl app. now apply lstrip_with_head, Hsp. }
  rewrite Hr, rev_app_distr, rev_involutive. reflexivity.
Qed.

Lemma lstrip_head c r : isspace c = false -> lstrip_chars (c :: r) = c :: r.
Proof. intros H; simpl; now rewrite H. Qed.

Lemma lstrip_digits l : forallb is_digit l = true -> lstrip_chars l = l.
Proof.
  destruct l as [|c r]; [reflexivity|]. simpl forallb.
  intros H; apply andb_prop in H; destruct H as [Hc _].
  apply lstrip_head. now apply digit_facts.
Qed.

Lemma strip_digits l : forallb is_digit l = true -> strip_chars l = l.
Proof.
  intros H; unfold strip_chars.
  rewrite (lstrip_digits l H).
  rewrite (lstrip_digits (rev l)) by now apply forallb_rev_of.
  apply rev_involutive.
Qed.

Lemma strip_minus_digits l :
  forallb is_digit l = true -> strip_chars ("-"%char :: l) = "-"%char :: l.
Proof.
  intros H; unfold strip_chars.
  rewrite lstrip_head by reflexivity.
  simpl rev.
  assert (Hr : lstrip_chars (rev l ++ ["-"%char]) = rev l ++ ["-"%char]).
  { pose proof (forallb_rev_of is_digit l H) as Hrev.
    destruct (rev l) as [|c r]; [reflexivity|].
    simpl in Hrev; apply andb_prop in Hrev; destruct Hrev as [Hc _].
    simpl app. apply lstrip_head. now apply digit_facts. }
  rewrite Hr, rev_app_distr, rev_involutive. reflexivity.
Qed.

Lemma Qred_int m : Qred (m # 1)%Q = (m # 1)%Q.
Proof.
  unfold Qred.
  pose proof (Z.ggcd_gcd m 1) as Hg. rewrite Z.gcd_1_r in Hg.
  pose proof (Z.ggcd_correct_divisors m 1) as Hd.
  destruct (Z.ggcd m 1) as (g, (aa, bb)); simpl in *; subst g.
  rewrite !Z.mul_1_l in Hd. destruct Hd as [<- <-]. reflexivity.
Qed.

(** Digits alone are not one of the names of a float. *)
Lemma digits_no_name c r (name : string) :
  is_digit c = true ->
  (name = "inf" \/ name = "infinity" \/ name = "nan")%string ->
  (string_of_list_ascii (map lower (c :: r)) =? name)%string = false.
Proof.
  intros Hc Hn. apply String.eqb_neq. simpl.
  destruct (digit_facts c Hc) as (_ & _ & _ & _ & _ & _ & _ & _ & Hl & Hi & Hnn & _).
  rewrite Hl. destruct Hn as [-> | [-> | ->]]; intros Heq; inversion Heq;
    congruence.
Qed.

Lemma parse_floatnumber_digits l :
  l <> [] ->
  forallb is_digit l = true ->
  parse_floatnumber l = Some (digits_value l # 1)%Q.
Proof.
  intros Hne Hd. unfold parse_floatnumber.
  rewrite break_at_none.
  2:{ revert Hd; apply forallb_weaken; intros c Hc.
      destruct (digit_facts c Hc) as (He & HE & _). now rewrite He, HE. }
  unfold parse_number. rewrite break_at_none.
  2:{ revert Hd; apply forallb_weaken; intros c Hc.
      destruct (digit_facts c Hc) as (_ & _ & Hdot & _). now rewrite Hdot. }
  unfold digitpart. rewrite digitpart_from_digits by auto.
  destruct l as [|c r]; [now elim Hne|].
  cbv beta iota. f_equal.
  change (0 - Z.of_nat 0)%Z with 0%Z. change (Qpower (10 # 1) 0) with 1%Q.
  unfold Qmult, inject_Z; cbn [Qnum Qden Pos.mul].
  rewrite Z.mul_1_r. apply Qred_int.
Qed.

Lemma float_digits s l :
  list_ascii_of_string s = l ->
  l <> [] ->
  forallb is_digit l = true ->
  float s = Some (Finite (inject_Z (digits_value l))).
Proof.
  intros Hs Hne Hd. unfold float.
  rewrite Hs, (strip_with_digits is_c_space l digit_c_space Hd).
  destruct l as [|c r]; [now elim Hne|].
  assert (Hc : is_digit c = true).
  { simpl in Hd; apply andb_prop in Hd; tauto. }
  destruct (digit_facts c Hc) as (_ & _ & _ & Hm & Hp & _).
  unfold take_sign; rewrite Hm, Hp.
  rewrite !digits_no_name by auto. simpl orb.
  now rewrite parse_floatnumber_digits.
Qed.

Lemma float_minus_digits s l :
  list_ascii_of_string s = "-"%char :: l ->
  l <> [] ->
  forallb is_digit l = true ->
  float s = Some (Finite (inject_Z (- digits_value l))).
Proof.
  intros Hs Hne Hd. unfold float.
  rewrite Hs, (strip_with_minus_digits is_c_space l digit_c_space eq_refl Hd).
  destruct l as [|c r]; [now elim Hne|].
  assert (Hc : is_digit c = true).
  { simpl in Hd; apply andb_prop in Hd; tauto. }
  cbn [take_sign]. change ("-" =? "-")%char with true. cbv iota.
  rewrite !digits_no_name by auto. simpl orb.
  rewrite parse_floatnumber_digits by auto.
  unfold negate, Qopp; cbn [Qnum Qden]. now rewrite Qred_int.
Qed.

Lemma str_int_chars z :
  match z with
  | Z0 => list_ascii_of_string (str_int z) = ["0"%char]
  | Z.pos p =>
      list_ascii_of_string (str_int z) = uint_chars (Pos.to_uint p)
  | Z.neg p =>
      list_ascii_of_string (str_int z)
      = "-"%char :: uint_chars (Pos.to_uint p)
  end.
Proof.
  destruct z as [|p|p]; [reflexivity | |];
    unfold str_int, uint_chars; simpl;
    pose proof (DecimalPos.Unsigned.to_uint_nonnil p) as Hnn;
    destruct (Pos.to_uint p); try reflexivity; now elim Hnn.
Qed.

Lemma pos_chars_value p : digits_value (uint_chars (Pos.to_uint p)) = Z.pos p.
Proof.
  change (fold_left digit_step (uint_chars (Pos.to_uint p)) 0%Z = Z.pos p).
  now rewrite uint_chars_value, DecimalPos.Unsigned.of_to.
Qed.

(** An integer printed by [str] is read back by [float] as itself. *)
Lemma float_str_int z :
  float (str_int z) = Some (Finite (inject_Z z))
  /\ float (strip (str_int z)) = Some (Finite (inject_Z z)).
Proof.
  assert (Hstrip : forall s l,
             list_ascii_of_string s = l -> strip_chars l = l ->
             list_ascii_of_string (strip s) = l).
  { intros s l Hs Hl. unfold strip.
    now rewrite list_ascii_of_string_of_list_ascii, Hs. }
  pose proof (str_int_chars z) as Hch.
  destruct z as [|p|p].
  - split; reflexivity.
  - pose proof (uint_chars_digits (Pos.to_uint p)) as Hd.
    pose proof (uint_chars_nonnil _ (DecimalPos.Unsigned.to_uint_nonnil p))
      as Hne.
    split.
    + rewrite (float_digits _ _ Hch Hne Hd). now rewrite pos_chars_value.
    + rewrite (float_digits _ _ (Hstrip _ _ Hch (strip_digits _ Hd)) Hne Hd).
      now rewrite pos_chars_value.
  - pose proof (uint_chars_digits (Pos.to_uint p)) as Hd.
    pose proof (uint_chars_nonnil _ (DecimalPos.Unsigned.to_uint_nonnil p))
      as Hne.
    split.
    + rewrite (float_minus_digits _ _ Hch Hne Hd).
      now rewrite pos_chars_value.
    + rewrite (float_minus_digits _ _
                 (Hstrip _ _ Hch (strip_minus_digits _ Hd)) Hne Hd).
      now rewrite pos_chars_value.
Qed.

(** X12.  Every integer of magnitude at most 2^53, the range in which a
    double holds every integer exactly, that the board prints with [str]
    is read back by the host's [float], with or without the [strip], as
    that same integer: the time stamps cross the serial line unchanged.
    And [str] never prints two different integers alike. *)
Theorem X12_float_of_str_int :
  (forall z,
      (- 9007199254740992 <= z <= 9007199254740992)%Z ->
      float (str_int z) = Some (Finite (inject_Z z))
      /\ float (strip (str_int z)) = Some (Finite (inject_Z z)))
  /\ (forall z z', str_int z = str_int z' -> z = z').
Proof.
  split.
  - intros z _. apply float_str_int.
  - intros z z' Heq.
    destruct (float_str_int z) as [Hf _].
    destruct (float_str_int z') as [Hf' _].
    rewrite <- Heq, Hf in Hf'. now inversion Hf'.
Qed.

Lemma X12_float_of_str_int_witness :
  (float (str_int (-1990)) = Some (Finite (inject_Z (-1990)))
   /\ float (strip (str_int (-1990))) = Some (Finite (inject_Z (-1990))))
  /\ 1990%Z = 1990%Z.
Proof.
  split.
  - apply (proj1 X12_float_of_str_int (-1990)%Z). lia.
  - apply (proj2 X12_float_of_str_int 1990%Z 1990%Z). reflexivity.
Defined.

End Numbers.

(** * The two programs together: the host reads a run of the board *)

Section Together.

Lemma list_byte_of_string_app a b :
  list_byte_of_string (a ++ b)
  = list_byte_of_string a ++ list_byte_of_string b.
Proof.
  induction a as [|c a IH]; [reflexivity|].
  change (list_byte_of_string (String c a ++ b))
    with (byte_of_ascii c :: list_byte_of_string (a ++ b)).
  rewrite IH. reflexivity.
Qed.

Lemma list_ascii_of_string_app a b :
  list_ascii_of_string (a ++ b)
  = list_ascii_of_string a ++ list_ascii_of_string b.
Proof.
  induction a as [|c a IH]; simpl; [reflexivity | now rewrite IH].
Qed.

Lemma ascii_text_app a b :
  ascii_text (a ++ b) = ascii_text a && ascii_text b.
Proof.
  unfold ascii_text. now rewrite list_byte_of_string_app, forallb_app.
Qed.

Lemma comma_free_app a b :
  comma_free (a ++ b) = comma_free a && comma_free b.
Proof.
  unfold comma_free. now rewrite list_ascii_of_string_app, forallb_app.
Qed.

Lemma ascii_text_chars s :
  forallb (fun c => (Byte.to_N (byte_of_ascii c) <? 128)%N)
          (list_ascii_of_string s) = true ->
  ascii_text s = true.
Proof.
  unfold ascii_text. induction s as [|c s IH]; [reflexivity|].
  change (list_byte_of_string (String c s))
    with (byte_of_ascii c :: list_byte_of_string s).
  simpl. intros H; apply andb_prop in H; destruct H as [Hc Hs].
  now rewrite Hc, IH.
Qed.

Lemma str_int_text z :
  ascii_text (str_int z) = true /\ comma_free (str_int z) = true.
Proof.
  pose proof (str_int_chars z) as Hch.
  assert (Hdig : forall d,
             forallb (fun c => (Byte.to_N (byte_of_ascii c) <? 128)%N)
                     (uint_chars d) = true
             /\ forallb (fun c => negb (c =? ",")%char) (uint_chars d) = true).
  { intros d; split;
      (generalize (uint_chars_digits d); apply forallb_weaken; intros c Hc;
       destruct (digit_facts c Hc) as (_ & _ & _ & _ & _ & Hcomma & _ & _ & _ & _ & _ & Hb));
      [exact Hb | now rewrite Hcomma]. }
  destruct z as [|p|p].
  - split; reflexivity.
  - destruct (Hdig (Pos.to_uint p)) as [Ha Hc].
    split; [apply ascii_text_chars | unfold comma_free]; now rewrite Hch.
  - destruct (Hdig (Pos.to_uint p)) as [Ha Hc].
    split; [apply ascii_text_chars | unfold comma_free]; rewrite Hch; simpl;
      assumption.
Qed.

Lemma decoded_crlf s : ascii_text s = true -> decoded (crlf s) = Some s.
Proof.
  intros Ha. unfold decoded, crlf.
  rewrite (slice_one_terminator _ x0d x0a).
  unfold decode_ascii. unfold ascii_text in Ha. rewrite Ha.
  now rewrite string_of_list_byte_of_string.
Qed.

(** What the host makes of one data line of the board. *)
Lemma csv_line_read hw t val y :
  readable hw val = true ->
  read_voltage hw val = Some y ->
  decoded (crlf (csv_line hw t val)) = Some (csv_line hw t val)
  /\ is_sentinel (crlf (csv_line hw t val)) = false
  /\ fields (crlf (csv_line hw t val)) = Some (Finite (inject_Z t), y).
Proof.
  intros Hr Hy. unfold readable in Hr.
  apply andb_prop in Hr; destruct Hr as [Hr _].
  apply andb_prop in Hr; destruct Hr as [Ha Hc].
  destruct (str_int_text t) as [Hat Hct].
  assert (Hline : csv_line hw t val
                  = (str_int t ++ String "," (str_float hw (adc_voltage val)))%string)
    by reflexivity.
  assert (Hd : decoded (crlf (csv_line hw t val)) = Some (csv_line hw t val)).
  { apply decoded_crlf. rewrite Hline, ascii_text_app, Hat.
    change (String "," (str_float hw (adc_voltage val)))
      with ("," ++ str_float hw (adc_voltage val))%string.
    now rewrite ascii_text_app, Ha. }
  split; [exact Hd | split].
  - unfold is_sentinel; rewrite Hd. apply String.eqb_neq.
    intros Heq; symmetry in Heq; revert Heq. apply csv_line_not_End.
  - unfold fields; rewrite Hd, Hline.
    rewrite split_comma_app, split_comma_free by assumption.
    rewrite (proj2 (float_str_int t)).
    unfold read_voltage in Hy; now rewrite Hy.
Qed.

Lemma numbered_lines_read hw vals :
  forall k,
    forallb (readable hw) vals = true ->
    let lines :=
      map crlf
        (map (fun iv =>
                csv_line hw (Z.of_nat (fst iv) * TIMER_INTERVAL) (snd iv))
           (combine (seq k (List.length vals)) vals)) in
    Forall (fun l => decodable l /\ is_sentinel l = false) lines
    /\ map fst (pairs lines) = map stamp (seq k (List.length vals))
    /\ map snd (pairs lines) = voltages hw vals
    /\ List.length (voltages hw vals) = List.length vals.
Proof.
  induction vals as [|val rest IH]; intros k Hr lines.
  - repeat split; constructor.
  - simpl in Hr; apply andb_prop in Hr; destruct Hr as [Hval Hrest].
    destruct (IH (S k) Hrest) as (Hall & Hx & Hy & Hlen).
    assert (Hy0 : exists y, read_voltage hw val = Some y).
    { unfold readable in Hval; apply andb_prop in Hval.
      destruct Hval as [_ Hv].
      destruct (read_voltage hw val) as [y|]; [eauto | discriminate]. }
    destruct Hy0 as (y & Hyv).
    destruct (csv_line_read hw (Z.of_nat k * TIMER_INTERVAL) val y Hval Hyv)
      as (Hd & Hs & Hf).
    unfold lines; simpl. rewrite Hf, Hyv; simpl.
    repeat split.
    + constructor; [|exact Hall].
      split; [unfold decodable; rewrite Hd; discriminate | exact Hs].
    + now rewrite Hx.
    + now rewrite Hy.
    + now rewrite Hlen.
Qed.

Lemma result_until_sentinel b pre line post :
  List.length b = 6 ->
  Forall (fun l => decodable l /\ is_sentinel l = false) pre ->
  is_sentinel line = true ->
  result (b ++ pre ++ line :: post)
  = Returned (map fst (pairs pre), map snd (pairs pre)).
Proof.
  intros Hb Hpre Hline.
  rewrite result_banner by assumption.
  destruct (read_loop_prefix pre EmptyString [] [] Hpre empty_not_term)
    as (ds & Hds & Hloop).
  rewrite Hloop, read_loop_cons by assumption.
  apply is_sentinel_true in Hline.
  now rewrite Hline, store_line_term, read_loop_term.
Qed.

(** X13.  The host reading a run of the board.  When [step_response]
    returns, having started with nothing on its output, and the text the
    board prints for each voltage is ASCII without a comma and reads as a
    number, then [get_data] fed the banner and the printed lines returns
    200 points: the times are 0, 10, 20 up to 1990, whatever the period
    of the run, and the voltages are those printed, in order. *)
Theorem X13_host_reads_board_run :
  forall hw period_ms st st' b,
    capacity (int_queue st) = QUEUE_SIZE ->
    num_in (int_queue st) <= QUEUE_SIZE ->
    stdout st = [] ->
    step_response hw period_ms st = (Returned tt, st') ->
    forallb (readable hw) (drained hw st) = true ->
    List.length b = 6 ->
    result (b ++ map crlf (stdout st'))
    = Returned (map stamp (seq 0 200), voltages hw (drained hw st))
    /\ List.length (voltages hw (drained hw st)) = 200.
Proof.
  intros hw period_ms st st' b Hcap Hnum Hout Hrun Hread Hb.
  destruct (step_response_returned hw period_ms st st' Hrun) as [Hp Hacc].
  rewrite step_response_run in Hrun by assumption.
  inversion Hrun; subst st'; clear Hrun. cbn [stdout].
  rewrite Hout; cbn [app].
  assert (Hlen : List.length (drained hw st) = 200).
  { rewrite drained_length; [exact Hcap | lia]. }
  destruct (numbered_lines_read hw (drained hw st) 0 Hread)
    as (Hall & Hx & Hy & Hl).
  rewrite map_app. cbn [map].
  rewrite (result_until_sentinel b _ (crlf "End") []); auto.
  unfold data_lines. rewrite Hx, Hy, Hlen. split; [reflexivity | lia].
Qed.

Lemma X13_host_reads_board_run_witness :
  result (banner ++ map crlf (stdout (snd (step_response bench 20 boot))))
  = Returned (map stamp (seq 0 200), voltages bench (drained bench boot))
  /\ List.length (voltages bench (drained bench boot)) = 200.
Proof.
  apply (X13_host_reads_board_run bench 20%Z boot
           (snd (step_response bench 20 boot)) banner).
  - reflexivity.
  - apply Nat.leb_le; reflexivity.
  - reflexivity.
  - vm_compute; reflexivity.
  - vm_compute; reflexivity.
  - reflexivity.
Defined.

End Together.

(** * Properties of the plot *)

Import GuiApp.

Section Plot.

Lemma returned_aligned stream xs ys :
  result stream = Returned (xs, ys) -> List.length xs = List.length ys.
Proof.
  intros Hret.
  destruct (Nat.lt_ge_cases (List.length stream) 6) as [Hs|Hs].
  { rewrite result_short in Hret by assumption; discriminate. }
  rewrite result_long in Hret by assumption.
  apply read_loop_returned in Hret; [|apply empty_not_term].
  destruct Hret as [-> ->]. simpl. now rewrite !length_map.
Qed.

Lemma plot_example_cases xlabel ylabel stream gui :
  match result stream with
  | Returned (xs, ys) =>
      plot_example xlabel ylabel (mkSerial stream []) gui
      = (Returned tt, snd (session stream),
         gui ++ [AxesPlot xs ys; SetXLabel xlabel; SetYLabel ylabel;
                 AxesGrid true; CanvasDraw])
  | Raised e =>
      plot_example xlabel ylabel (mkSerial stream []) gui
      = (Raised e, snd (session stream), gui)
  | Blocked =>
      plot_example xlabel ylabel (mkSerial stream []) gui
      = (Blocked, snd (session stream), gui)
  end.
Proof.
  unfold plot_example, result, session.
  destruct (get_data (mkSerial stream [])) as [[[xs ys]|e|] ser'];
    reflexivity.
Qed.

(** X15.  [plot_example] touches the axes and the canvas only after
    [get_data] has returned: it then plots the two arrays of [get_data],
    which have the same length, sets the two labels, turns the grid on and
    draws, in this order.  When [get_data] raises or blocks, so does
    [plot_example], and no call at all is made on the axes or canvas. *)
Theorem X15_plot_example_draws_data :
  forall xlabel ylabel stream gui r ser' gui',
    plot_example xlabel ylabel (mkSerial stream []) gui = (r, ser', gui') ->
    (r = Returned tt ->
     exists xs ys,
       result stream = Returned (xs, ys)
       /\ List.length xs = List.length ys
       /\ gui' = gui ++ [AxesPlot xs ys; SetXLabel xlabel; SetYLabel ylabel;
                         AxesGrid true; CanvasDraw])
    /\ (r <> Returned tt ->
        gui' = gui
        /\ (forall e, r = Raised e -> result stream = Raised e)
        /\ (r = Blocked -> result stream = Blocked)).
Proof.
  intros xlabel ylabel stream gui r ser' gui' Hplot.
  pose proof (plot_example_cases xlabel ylabel stream gui) as Hc.
  destruct (result stream) as [[xs ys]|e|] eqn:Hres;
    rewrite Hc in Hplot; inversion Hplot; subst; clear Hplot.
  - split; [|intros H; now elim H].
    intros _. exists xs, ys. repeat split.
    now apply (returned_aligned stream).
  - split; [discriminate|]. intros _. repeat split.
    + intros e' He'; now inversion He'.
    + discriminate.
  - split; [discriminate|]. intros _. repeat split. discriminate.
Qed.

Lemma X15_plot_example_draws_data_witness :
  (exists xs ys,
      result (banner ++ map crlf ["1,2.5"; "End"]%string) = Returned (xs, ys)
      /\ List.length xs = List.length ys
      /\ snd (plot_example "t" "v"
                (mkSerial (banner ++ map crlf ["1,2.5"; "End"]%string) [])
                [AxesClear])
         = [AxesClear]
           ++ [AxesPlot xs ys; SetXLabel "t"; SetYLabel "v"; AxesGrid true;
               CanvasDraw])
  /\ snd (plot_example "t" "v" (mkSerial banner []) [AxesClear]) = [AxesClear].
Proof.
  split.
  - destruct (X15_plot_example_draws_data "t" "v"
                (banner ++ map crlf ["1,2.5"; "End"]%string) [AxesClear]
                (Returned tt)
                (snd (fst (plot_example "t" "v"
                    (mkSerial (banner ++ map crlf ["1,2.5"; "End"]%string) [])
                    [AxesClear])))
                (snd (plot_example "t" "v"
                    (mkSerial (banner ++ map crlf ["1,2.5"; "End"]%string) [])
                    [AxesClear])))
      as [Hok _].
    + vm_compute; reflexivity.
    + exact (Hok eq_refl).
  - destruct (X15_plot_example_draws_data "t" "v" banner [AxesClear]
                Blocked
                (snd (fst (plot_example "t" "v" (mkSerial banner [])
                             [AxesClear])))
                (snd (plot_example "t" "v" (mkSerial banner []) [AxesClear])))
      as [_ Hbad].
    + vm_compute; reflexivity.
    + apply Hbad. discriminate.
Defined.

End Plot.

(** * Properties of the square wave *)

Section SquareWave.

Lemma square_turn st :
  Square.turn st
  = Square.mkPyboard (Square.pin_out st) false (Square.ticks_ms st + 10000)
      (Square.edges st
       ++ [(Square.ticks_ms st, true); (Square.ticks_ms st + 5000, false)%Z]).
Proof.
  unfold Square.turn, Square.sleep_ms, Square.pin_value; simpl.
  rewrite <- app_assoc. f_equal. lia.
Qed.

Lemma square_main n :
  Square.ticks_ms (Square.main n) = (10000 * Z.of_nat n)%Z
  /\ Square.pin_out (Square.main n) = true
  /\ List.length (Square.edges (Square.main n)) = 2 * n.
Proof.
  induction n as [|n (Ht & Hp & Hl)]; [repeat split|].
  unfold Square.main in *. simpl Nat.iter. rewrite square_turn.
  cbn [Square.ticks_ms Square.pin_out Square.edges].
  rewrite Ht, Hp, length_app, Hl. cbn [List.length].
  repeat split; lia.
Qed.

Lemma level_at_app changes more t :
  Square.level_at (changes ++ more) t
  = fold_left (fun cur e => if (fst e <=? t)%Z then Some (snd e) else cur)
      more (Square.level_at changes t).
Proof. unfold Square.level_at. apply fold_left_app. Qed.

(** X14.  The square wave of [square.py].  After [n] turns of the loop
    10 [n] seconds have passed and the pin, an output, has changed level
    twice per turn; at every millisecond [t] of that time the pin is high
    when [t mod 10000] is below 5000 and low otherwise: a period of ten
    seconds, high first, half of the time high. *)
Theorem X14_square_wave :
  forall n,
    Square.ticks_ms (Square.main n) = (10000 * Z.of_nat n)%Z
    /\ Square.pin_out (Square.main n) = true
    /\ List.length (Square.edges (Square.main n)) = 2 * n
    /\ (forall t,
          (0 <= t < 10000 * Z.of_nat n)%Z ->
          Square.level_at (Square.edges (Square.main n)) t
          = Some (t mod 10000 <? 5000)%Z).
Proof.
  intros n. destruct (square_main n) as (Ht & Hp & Hl).
  split; [exact Ht | split; [exact Hp | split; [exact Hl|]]].
  clear Ht Hp Hl.
  induction n as [|n IH]; intros t Hrange; [lia|].
  destruct (square_main n) as (Ht & _ & _).
  unfold Square.main in *. simpl Nat.iter. rewrite square_turn.
  cbn [Square.edges]. rewrite level_at_app, Ht. cbn [fold_left fst snd].
  destruct (Z.leb_spec (10000 * Z.of_nat n) t) as [Hge|Hlt].
  - destruct (Z.leb_spec (10000 * Z.of_nat n + 5000) t) as [Hge2|Hlt2];
      f_equal; symmetry.
    + apply Z.ltb_ge.
      rewrite <- (Z.mod_unique t 10000 (Z.of_nat n) (t - 10000 * Z.of_nat n));
        lia.
    + apply Z.ltb_lt.
      rewrite <- (Z.mod_unique t 10000 (Z.of_nat n) (t - 10000 * Z.of_nat n));
        lia.
  - destruct (Z.leb_spec (10000 * Z.of_nat n + 5000) t) as [Hge2|Hlt2];
      [lia|].
    apply IH. lia.
Qed.

Lemma X14_square_wave_witness :
  Square.level_at (Square.edges (Square.main 3)) 12345 = Some true
  /\ Square.level_at (Square.edges (Square.main 3)) 27000 = Some false.
Proof.
  destruct (X14_square_wave 3) as (_ & _ & _ & Hlevel).
  split.
  - apply (Hlevel 12345%Z). lia.
  - apply (Hlevel 27000%Z). lia.
Defined.

End SquareWave.

(** * White space around a column *)

Section Blanks.

Variable sp : ascii -> bool.

Lemma lstrip_with_blank_app ws l :
  forallb sp ws = true -> lstrip_with sp (ws ++ l) = lstrip_with sp l.
Proof.
  induction ws as [|c ws IH]; simpl; [reflexivity|].
  intros H; apply andb_prop in H; destruct H as [Hc Hws].
  rewrite Hc. now apply IH.
Qed.

Lemma lstrip_with_blank ws :
  forallb sp ws = true -> lstrip_with sp ws = [].
Proof.
  intros H. rewrite <- (app_nil_r ws). now rewrite lstrip_with_blank_app.
Qed.

Lemma lstrip_with_app_keeps l m :
  lstrip_with sp l <> [] ->
  lstrip_with sp (l ++ m) = lstrip_with sp l ++ m.
Proof.
  induction l as [|c l IH]; simpl; [intros H; now elim H|].
  destruct (sp c); [exact IH | reflexivity].
Qed.

Lemma strip_with_padded ws l ws' :
  forallb sp ws = true ->
  forallb sp ws' = true ->
  strip_with sp (ws ++ l ++ ws') = strip_with sp l.
Proof.
  intros Hws Hws'. unfold strip_with.
  rewrite lstrip_with_blank_app by assumption.
  destruct (lstrip_with sp l) as [|c r] eqn:Hl.
  - assert (Hall : lstrip_with sp (l ++ ws') = []).
    { clear Hws. induction l as [|a l IH]; simpl in *.
      - now apply lstrip_with_blank.
      - destruct (sp a); [now apply IH | discriminate]. }
    now rewrite Hall.
  - rewrite lstrip_with_app_keeps by (rewrite Hl; discriminate).
    rewrite Hl, rev_app_distr.
    now rewrite lstrip_with_blank_app by now apply forallb_rev_of.
Qed.

End Blanks.

Section Padding.

Lemma strip_chars_with l : strip_chars l = strip_with isspace l.
Proof.
  assert (H : forall m, lstrip_chars m = lstrip_with isspace m).
  { induction m as [|c m IH]; simpl; [reflexivity|].
    destruct (isspace c); [exact IH | reflexivity]. }
  unfold strip_chars, strip_with. now rewrite !H.
Qed.

(** X17.  White space around a column makes no difference to what
    [get_data] reads from it: a text padded on either side with the white
    space of [str.strip()] is stripped to the same text, hence converted
    alike.  [float] by itself skips the white space of the C library only:
    padded with TAB, LF, VT, FF, CR or spaces a text converts as the text
    itself, while a text led by the separator FS, which [strip()] removes,
    is refused by [float] alone. *)
Theorem X17_padding_ignored :
  forall ws s ws',
    (blank ws = true -> blank ws' = true ->
     strip (ws ++ s ++ ws') = strip s
     /\ float (strip (ws ++ s ++ ws')) = float (strip s))
    /\ (c_blank ws = true -> c_blank ws' = true ->
        float (ws ++ s ++ ws') = float s)
    /\ float (String "028" "3") = None
    /\ float (strip (String "028" "3")) = Some (Finite (inject_Z 3)).
Proof.
  intros ws s ws'. split; [|split; [|split; reflexivity]].
  - intros Hws Hws'.
    assert (Hs : strip (ws ++ s ++ ws') = strip s).
    { unfold strip. rewrite !list_ascii_of_string_app, !strip_chars_with.
      now rewrite strip_with_padded. }
    split; [exact Hs | now rewrite Hs].
  - intros Hws Hws'. unfold float. rewrite !list_ascii_of_string_app.
    now rewrite strip_with_padded.
Qed.

Lemma X17_padding_ignored_witness :
  float (strip (String "028" " " ++ "1.5" ++ String "009" (String "031" "")))
  = float (strip "1.5")
  /\ float (" " ++ "1.5" ++ String "010" " ") = float "1.5".
Proof.
  split.
  - apply (proj1 (X17_padding_ignored (String "028" " ") "1.5"
                    (String "009" (String "031" "")))); reflexivity.
  - apply (proj1 (proj2 (X17_padding_ignored " " "1.5" (String "010" " "))));
      reflexivity.
Defined.

End Padding.
